(** * Book catalogue: keyword recommender, tag-form parsing and seed bootstrap

    A shallow embedding of [main.py].  Python [str] values are sequences of
    Unicode code points; the functions below mirror the string methods the
    program calls ([strip], [split], [join], [in], [lower]) and then the
    program's own functions, under their source names. *)

From Stdlib Require Import List NArith ZArith Bool Lia Arith.
From Stdlib Require Import Strings.String Strings.Ascii.
From Stdlib Require Import Sorting.Permutation.
Import ListNotations.

(** ** Python strings *)

Module PyStr.

(** A code point, 0 .. 0x10FFFF. *)
Definition codepoint := N.

(** A Python [str]. *)
Definition pystr := list codepoint.

(** [not s] for a sequence [s]. *)
Definition is_empty {A : Type} (s : list A) : bool :=
  match s with
  | [] => true
  | _ :: _ => false
  end.

(** The characters [str.isspace] accepts, which are the ones [str.strip()]
    and [str.split()] (both without argument) treat as whitespace. *)
Definition is_space (c : codepoint) : bool :=
  ((9 <=? c) && (c <=? 13)
   || (28 <=? c) && (c <=? 32)
   || (c =? 133) || (c =? 160) || (c =? 5760)
   || (8192 <=? c) && (c <=? 8202)
   || (c =? 8232) || (c =? 8233) || (c =? 8239) || (c =? 8287)
   || (c =? 12288))%N.

Fixpoint lstrip (s : pystr) : pystr :=
  match s with
  | [] => []
  | c :: s' => if is_space c then lstrip s' else s
  end.

Definition rstrip (s : pystr) : pystr := rev (lstrip (rev s)).

(** [s.strip()] *)
Definition strip (s : pystr) : pystr := rstrip (lstrip s).

(** [s.split()]: the maximal runs of non-whitespace characters, in order.
    [cur] holds the characters of the run being read, latest first. *)
Fixpoint split_ws_from (cur : pystr) (s : pystr) : list pystr :=
  match s with
  | [] => if is_empty cur then [] else [rev cur]
  | c :: s' =>
      if is_space c
      then (if is_empty cur then split_ws_from [] s'
            else rev cur :: split_ws_from [] s')
      else split_ws_from (c :: cur) s'
  end.

Definition split_ws (s : pystr) : list pystr := split_ws_from [] s.

(** [s.split(sep)] for a one-character separator: the pieces between the
    separators, empty pieces included; always at least one piece. *)
Fixpoint split_on_from (sep : codepoint) (cur : pystr) (s : pystr)
  : list pystr :=
  match s with
  | [] => [rev cur]
  | c :: s' =>
      if (c =? sep)%N then rev cur :: split_on_from sep [] s'
      else split_on_from sep (c :: cur) s'
  end.

Definition split_on (sep : codepoint) (s : pystr) : list pystr :=
  split_on_from sep [] s.

(** [sep.join(parts)] *)
Fixpoint join (sep : pystr) (parts : list pystr) : pystr :=
  match parts with
  | [] => []
  | [p] => p
  | p :: ps => p ++ sep ++ join sep ps
  end.

Fixpoint starts_with (s w : pystr) {struct w} : bool :=
  match w, s with
  | [], _ => true
  | _ :: _, [] => false
  | a :: w', c :: s' => (a =? c)%N && starts_with s' w'
  end.

(** [w in s]: [w] occurs in [s] at some position. *)
Fixpoint contains (s w : pystr) : bool :=
  starts_with s w
  || match s with
     | [] => false
     | _ :: s' => contains s' w
     end.

(** [sum(xs)] *)
Definition py_sum (xs : list nat) : nat := fold_left Nat.add xs 0.

(** Source literals are written as UTF-8 text and decoded to code points. *)
Fixpoint utf8_from (acc : N) (more : nat) (bytes : list N) : pystr :=
  match bytes with
  | [] => []
  | b :: bs =>
      match more with
      | O =>
          if (b <? 128)%N then b :: utf8_from 0 0 bs
          else if (b <? 224)%N then utf8_from (b mod 32)%N 1 bs
          else if (b <? 240)%N then utf8_from (b mod 16)%N 2 bs
          else utf8_from (b mod 8)%N 3 bs
      | S O => (acc * 64 + b mod 64)%N :: utf8_from 0 0 bs
      | S k => utf8_from (acc * 64 + b mod 64)%N k bs
      end
  end.

Definition lit (s : string) : pystr :=
  utf8_from 0 0 (map N_of_ascii (list_ascii_of_string s)).

(** A token: non-empty and free of whitespace. *)
Definition is_token (w : pystr) : Prop :=
  w <> [] /\ forallb (fun c => negb (is_space c)) w = true.

(** What it means for [w] to be a substring of [s]. *)
Definition substring (w s : pystr) : Prop :=
  exists pre post, s = pre ++ w ++ post.

End PyStr.

Import PyStr.

(** ** The data model *)

(** [class Book]: [id] is absent until the row is stored. *)
Record Book := mkBook {
  id : option Z;
  title : pystr;
  author : pystr;
  tags : list pystr
}.

(** The book table behind [engine]: its rows, in the order the storage
    lists them. *)
Definition Table := list Book.

(** The largest key in use, if there is one. *)
Definition largest_id (db : Table) : option Z :=
  fold_right (fun b m => match id b, m with
                         | Some i, Some k => Some (Z.max i k)
                         | Some i, None => Some i
                         | None, _ => m
                         end) None db.

(** The key the storage gives to the next row: 1 in a table without keys,
    otherwise one more than the largest key in use, negative keys
    included.  This is the rule of the default SQLite store while the
    largest key is below 2^63 - 1; at that key the store picks an unused
    key at random, which is left out here. *)
Definition next_id (db : Table) : Z :=
  match largest_id db with
  | Some k => k + 1
  | None => 1
  end.

(** [session.add(book)] followed by the commit: a book that has no [id]
    yet gets one, and the row is listed after the rows that were there,
    as the store does when the new key is the largest. *)
Definition session_add (db : Table) (book : Book) : Table :=
  db ++ [match id book with
         | Some _ => book
         | None => mkBook (Some (next_id db)) (title book) (author book)
                          (tags book)
         end].

(** [session.exec(select(Book)).all()] and [.first()] *)
Definition select_all (db : Table) : list Book := db.
Definition select_first (db : Table) : option Book := hd_error db.

(** ** Seed data *)

Definition initial_books : list Book :=
  [ mkBook None (lit "Изучаем Python") (lit "Марк Лутц")
      [lit "мотивация"; lit "учеба"; lit "развитие"; lit "практика"];
    mkBook None (lit "Чистый код") (lit "Роберт Мартин")
      [lit "профессионализм"; lit "качество"; lit "структура";
       lit "лучшие практики"];
    mkBook None (lit "Автостопом по галактике") (lit "Дуглас Адамс")
      [lit "юмор"; lit "приключения"; lit "философия"; lit "абсурд"];
    mkBook None (lit "1984") (lit "Джордж Оруэлл")
      [lit "антиутопия"; lit "политика"; lit "контроль"; lit "размышления"];
    mkBook None (lit "Мастер и Маргарита") (lit "Михаил Булгаков")
      [lit "мистика"; lit "сатира"; lit "добро и зло"; lit "классика"];
    mkBook None (lit "Три товарища") (lit "Эрих Мария Ремарк")
      [lit "дружба"; lit "любовь"; lit "потеря"; lit "меланхолия"];
    mkBook None (lit "Маленький принц") (lit "Антуан де Сент-Экзюпери")
      [lit "философия"; lit "дети"; lit "дружба"; lit "простые истины"] ].

(** [create_db_and_tables]: the seed books are added only when the table
    has no first row. *)
Definition create_db_and_tables (db : Table) : Table :=
  let existing_books := select_first db in
  match existing_books with
  | Some _ => db
  | None => fold_left session_add initial_books db
  end.

(** ** The recommender *)

(** The loop variables [best_book] and [best_match_score]. *)
Record Best := mkBest {
  best_book : option Book;
  best_match_score : nat
}.

Definition no_best : Best := mkBest None 0.

(** What the loop does with one book: leaves it out ([continue]) or gives
    it a score. *)
Inductive event :=
| Skipped (book : Book)
| Scored (book : Book) (match_score : nat).

Section Recommender.

(** [str.lower], the Unicode case mapping, is a parameter: nothing below
    depends on what it does to a particular string. *)
Variable lower : pystr -> pystr.

(** The two lines computing [tags_text] and [match_score]. *)
Definition match_score (query_words : list pystr) (book : Book) : nat :=
  let tags_text := lower (join (lit " ") (tags book)) in
  py_sum (map (fun _ => 1)
              (filter (fun word => contains tags_text word) query_words)).

(** One iteration of [for book in all_books]. *)
Definition loop_body (query_words : list pystr) (st : Best) (book : Book)
  : Best :=
  if is_empty (tags book) then st
  else
    let score := match_score query_words book in
    if best_match_score st <? score then mkBest (Some book) score else st.

Definition recommend_book_simple (user_query : pystr) (all_books : list Book)
  : option Book :=
  if is_empty user_query || is_empty (strip user_query) then None
  else
    let query_words := split_ws (lower user_query) in
    best_book (fold_left (loop_body query_words) all_books no_best).

(** The same function, also recording what each iteration did. *)
Definition loop_body_traced (query_words : list pystr)
    (st : Best * list event) (book : Book) : Best * list event :=
  if is_empty (tags book) then (fst st, snd st ++ [Skipped book])
  else
    let score := match_score query_words book in
    (if best_match_score (fst st) <? score then mkBest (Some book) score
     else fst st,
     snd st ++ [Scored book score]).

Definition recommend_traced (user_query : pystr) (all_books : list Book)
  : option Book * list event :=
  if is_empty user_query || is_empty (strip user_query) then (None, [])
  else
    let query_words := split_ws (lower user_query) in
    let r := fold_left (loop_body_traced query_words) all_books (no_best, [])
    in (best_book (fst r), snd r).

(** The loop as a relation between the loop variables before and after,
    one rule per path through the body. *)
Inductive scan (query_words : list pystr) : Best -> list Book -> Best -> Prop :=
| scan_done st :
    scan query_words st [] st
| scan_continue st book rest st' :
    tags book = [] ->
    scan query_words st rest st' ->
    scan query_words st (book :: rest) st'
| scan_replace st book rest st' :
    tags book <> [] ->
    best_match_score st < match_score query_words book ->
    scan query_words (mkBest (Some book) (match_score query_words book))
         rest st' ->
    scan query_words st (book :: rest) st'
| scan_keep st book rest st' :
    tags book <> [] ->
    match_score query_words book <= best_match_score st ->
    scan query_words st rest st' ->
    scan query_words st (book :: rest) st'.

(** A run of [recommend_book_simple] and what it returns. *)
Inductive returns : pystr -> list Book -> option Book -> Prop :=
| returns_blank user_query all_books :
    user_query = [] \/ strip user_query = [] ->
    returns user_query all_books None
| returns_best user_query all_books st :
    user_query <> [] ->
    strip user_query <> [] ->
    scan (split_ws (lower user_query)) no_best all_books st ->
    returns user_query all_books (best_book st).

(** What one iteration records for [book]. *)
Definition book_event (query_words : list pystr) (book : Book) : event :=
  if is_empty (tags book) then Skipped book
  else Scored book (match_score query_words book).

(** The score a book takes into the comparison [match_score >
    best_match_score]; a book that is skipped takes none, which leaves the
    loop variables as a score of 0 would. *)
Definition counted (query_words : list pystr) (book : Book) : nat :=
  if is_empty (tags book) then 0 else match_score query_words book.

(** The specification's wording of the test behind the score: the token is
    a substring of the tags joined by single spaces and lowercased. *)
Definition token_matches (book : Book) (word : pystr) : Prop :=
  substring word (lower (join [32%N] (tags book))).

End Recommender.

(** [count_tokens P words n]: exactly [n] of the entries of [words] satisfy
    [P], an entry that occurs twice being counted twice. *)
Inductive count_tokens (P : pystr -> Prop) : list pystr -> nat -> Prop :=
| count_none :
    count_tokens P [] 0
| count_hit word words n :
    P word -> count_tokens P words n -> count_tokens P (word :: words) (S n)
| count_miss word words n :
    ~ P word -> count_tokens P words n -> count_tokens P (word :: words) n.

(** ** The creation form *)

Inductive Response :=
| RedirectResponse (url : pystr) (status_code : Z).

(** The comprehension that turns the [tags] form field into a list. *)
Definition parse_tags (tags : pystr) : list pystr :=
  if is_empty tags then []
  else map strip
           (filter (fun tag => negb (is_empty (strip tag)))
                   (split_on 44%N tags)).

Definition create_book_via_form (db : Table) (title author tags : pystr)
  : Table * Response :=
  let tags_list := parse_tags tags in
  let new_book := mkBook None title author tags_list in
  (session_add db new_book, RedirectResponse (lit "/library") 303).

(** ** A case mapping for the scenarios *)

(** [str.lower] on text over ASCII and the Cyrillic letters U+0400..U+045F,
    where it maps code point by code point. *)
Definition lower_cp (c : codepoint) : codepoint :=
  if ((65 <=? c) && (c <=? 90))%N then (c + 32)%N
  else if ((1040 <=? c) && (c <=? 1071))%N then (c + 32)%N
  else if ((1024 <=? c) && (c <=? 1039))%N then (c + 80)%N
  else c.

Definition lower_basic (s : pystr) : pystr := map lower_cp s.

(** Lowercase Cyrillic letters а..я and the space. *)
Definition plain_cp (c : codepoint) : bool :=
  ((c =? 32) || (1072 <=? c) && (c <=? 1103))%N.

(** ** Sample inputs *)

Definition friendship_book : Book :=
  mkBook (Some 6%Z) (lit "Три товарища") (lit "Эрих Мария Ремарк")
    [lit "дружба"; lit "любовь"].

Definition prince_book : Book :=
  mkBook (Some 7%Z) (lit "Маленький принц") (lit "Антуан де Сент-Экзюпери")
    [lit "философия"; lit "дружба"].

Definition untagged_book : Book :=
  mkBook (Some 8%Z) (lit "Test") (lit "A") [].

(** ** Configuration *)

(** [s.replace(old, new, 1)]: the leftmost occurrence of [old] is
    replaced. *)
Fixpoint replace_first (old new s : pystr) : pystr :=
  if starts_with s old then new ++ skipn (List.length old) s
  else match s with
       | [] => []
       | c :: s' => c :: replace_first old new s'
       end.

(** The module-level computation of [database_url]; [env] is the value of
    the environment variable DATABASE_URL when it is set. *)
Definition database_url (env : option pystr) : pystr :=
  let database_url :=
    match env with
    | Some value => value
    | None => lit "sqlite:///database.db"
    end in
  if starts_with database_url (lit "postgres://")
  then replace_first (lit "postgres://") (lit "postgresql://") database_url
  else database_url.

(** ** The recommendation page *)

Module Page.

(** The values [get_recommendation] hands to the template. *)
Record Context := mkContext {
  books : list Book;
  recommended_book : option Book;
  user_query : pystr
}.

End Page.

Definition get_recommendation (lower : pystr -> pystr) (db : Table)
    (user_query : pystr) : Page.Context :=
  let all_books := select_all db in
  let recommended_book := recommend_book_simple lower user_query all_books in
  Page.mkContext all_books recommended_book user_query.

(** ** The scorer among the program's state *)

(** A reference to a [Book] object. *)
Definition ref := nat.

(** What a call can reach besides the values of its arguments: the [Book]
    objects behind the references, the rows of the table, and the module's
    [database_url]. *)
Record World := mkWorld {
  objects : ref -> Book;
  stored : Table;
  address : pystr
}.

(** A computation that may read and change the world. *)
Definition Prog (A : Type) : Type := World -> A * World.

Definition ret {A : Type} (a : A) : Prog A := fun w => (a, w).

Definition bind {A B : Type} (m : Prog A) (k : A -> Prog B) : Prog B :=
  fun w => let (a, w') := m w in k a w'.

(** [book.tags]: the attribute is read from the object. *)
Definition get_tags (book : ref) : Prog (list pystr) :=
  fun w => (tags (objects w book), w).

(** The loop variables, [best_book] being a reference. *)
Record BestRef := mkBestRef {
  best_ref : option ref;
  best_ref_score : nat
}.

(** One iteration of the loop: [book.tags] is read for the test and again
    for the join. *)
Definition iteration (lower : pystr -> pystr) (query_words : list pystr)
    (st : BestRef) (book : ref) : Prog BestRef :=
  bind (get_tags book) (fun tested =>
    if is_empty tested then ret st
    else
      bind (get_tags book) (fun joined =>
        let tags_text := lower (join (lit " ") joined) in
        let score :=
          py_sum (map (fun _ => 1)
                      (filter (fun word => contains tags_text word)
                              query_words)) in
        ret (if best_ref_score st <? score then mkBestRef (Some book) score
             else st))).

(** [for item in items], threading the loop variables and the world. *)
Fixpoint for_each {S A : Type} (body : S -> A -> Prog S) (items : list A)
    (st : S) : Prog S :=
  match items with
  | [] => ret st
  | item :: rest => bind (body st item) (for_each body rest)
  end.

(** [recommend_book_simple] on references to the books. *)
Definition recommend_in_world (lower : pystr -> pystr) (user_query : pystr)
    (all_books : list ref) : Prog (option ref) :=
  if is_empty user_query || is_empty (strip user_query) then ret None
  else
    let query_words := split_ws (lower user_query) in
    bind (for_each (iteration lower query_words) all_books
                   (mkBestRef None 0))
         (fun st => ret (best_ref st)).

(** Two states of the program that agree on the tags of the objects 0 and
    1 and on nothing else. *)
Definition world_at_startup : World :=
  mkWorld (fun r => nth r [untagged_book; prince_book] untagged_book)
          [] (lit "sqlite:///database.db").

Definition world_later : World :=
  mkWorld (fun r => nth r [mkBook None (lit "B") [] [];
                           mkBook (Some 2%Z) (lit "C") (lit "D")
                                  (tags prince_book)]
                          friendship_book)
          initial_books (lit "postgresql://h/db").

(** ** Predicates used in the statements *)

(** A tag as the form stores it: not empty, without comma, and unchanged by
    trimming. *)
Definition well_formed_tag (t : pystr) : Prop :=
  t <> [] /\ ~ In 44%N t /\ strip t = t.

Definition space_or_comma (c : codepoint) : bool :=
  is_space c || (c =? 44)%N.

(** The token occurs inside one of the book's tags, lowercased. *)
Definition token_in_a_tag (lower : pystr -> pystr) (book : Book)
    (word : pystr) : Prop :=
  exists t, In t (tags book) /\ substring word (lower t).

(** ** Python strings: lemmas *)

Example lit_ascii : lit "x, y" = [120; 44; 32; 121]%N.
Proof. reflexivity. Qed.

Example lit_cyrillic : lit "хочу и" = [1093; 1086; 1095; 1091; 32; 1080]%N.
Proof. reflexivity. Qed.

(** *** Substring search *)

Lemma starts_with_spec (w s : pystr) :
  starts_with s w = true <-> exists post, s = w ++ post.
Proof.
  revert s; induction w as [|a w IH]; intros s; simpl.
  - split; [intros _; now exists s | reflexivity].
  - destruct s as [|c s].
    + split; [discriminate | intros [post E]; discriminate].
    + rewrite andb_true_iff, N.eqb_eq, IH. split.
      * intros [-> [post ->]]. now exists post.
      * intros [post E]. injection E as -> ->. split; [reflexivity | now exists post].
Qed.

Lemma contains_spec (s w : pystr) :
  contains s w = true <-> substring w s.
Proof.
  unfold substring. induction s as [|c s IH].
  - simpl. rewrite orb_false_r, starts_with_spec. split.
    + intros [post E]. now exists [], post.
    + intros [pre [post E]]. destruct pre; [now exists post|discriminate].
  - change (contains (c :: s) w)
      with (starts_with (c :: s) w || contains s w).
    rewrite orb_true_iff, starts_with_spec, IH. split.
    + intros [[post E] | [pre [post E]]].
      * now exists [], post.
      * exists (c :: pre), post. simpl. now f_equal.
    + intros [[|c' pre] [post E]].
      * left. now exists post.
      * right. injection E as -> ->. now exists pre, post.
Qed.

Lemma contains_nil_l (w : pystr) : w <> [] -> contains [] w = false.
Proof. destruct w; [congruence | reflexivity]. Qed.

(** *** Sums of ones *)

Lemma fold_left_add_ones (A : Type) (l : list A) (n : nat) :
  fold_left Nat.add (map (fun _ => 1) l) n = n + List.length l.
Proof.
  revert n; induction l as [|x l IH]; intros n; simpl.
  - lia.
  - rewrite IH. lia.
Qed.

Lemma py_sum_ones (A : Type) (l : list A) :
  py_sum (map (fun _ => 1) l) = List.length l.
Proof. unfold py_sum. now rewrite fold_left_add_ones. Qed.

(** *** Trimming *)

Lemma lstrip_spec (s : pystr) :
  exists l, s = l ++ lstrip s /\ forallb is_space l = true
            /\ (forall c r, lstrip s = c :: r -> is_space c = false).
Proof.
  induction s as [|c s (l & E & Hl & Hhd)]; simpl.
  - exists []. repeat split. discriminate.
  - destruct (is_space c) eqn:Hc.
    + exists (c :: l). simpl. rewrite Hc, Hl. repeat split; [now f_equal | exact Hhd].
    + exists []. repeat split. intros c' r E'. now injection E' as <- _.
Qed.

Lemma lstrip_blank (s : pystr) :
  forallb is_space s = true -> lstrip s = [].
Proof.
  induction s as [|c s IH]; simpl; [reflexivity|].
  destruct (is_space c); simpl; [exact IH | discriminate].
Qed.

Lemma lstrip_nil_blank (s : pystr) :
  lstrip s = [] -> forallb is_space s = true.
Proof.
  induction s as [|c s IH]; simpl; [reflexivity|].
  destruct (is_space c); simpl; [exact IH | discriminate].
Qed.

Lemma strip_blank (s : pystr) :
  forallb is_space s = true -> strip s = [].
Proof. intros H. unfold strip. now rewrite (lstrip_blank _ H). Qed.

Lemma strip_nil_blank (s : pystr) :
  strip s = [] -> forallb is_space s = true.
Proof.
  unfold strip, rstrip. intros H.
  apply (f_equal (@rev _)) in H. rewrite rev_involutive in H. simpl in H.
  apply lstrip_nil_blank in H. rewrite forallb_forall in H.
  destruct (lstrip_spec s) as (l & E & Hl & _).
  rewrite E, forallb_app, Hl. simpl.
  apply forallb_forall. intros c Hc. apply H. now apply in_rev in Hc.
Qed.

(** [strip] removes a whitespace prefix and a whitespace suffix, and what
    is left neither starts nor ends with whitespace. *)
Lemma strip_spec (s : pystr) :
  exists l r, s = l ++ strip s ++ r
    /\ forallb is_space l = true /\ forallb is_space r = true
    /\ (forall c t, strip s = c :: t -> is_space c = false)
    /\ (forall c t, strip s = t ++ [c] -> is_space c = false).
Proof.
  destruct (lstrip_spec s) as (l & E & Hl & Hhd).
  destruct (lstrip_spec (rev (lstrip s))) as (r & E' & Hr & Hhd').
  assert (Em : lstrip s = strip s ++ rev r).
  { unfold strip, rstrip. rewrite <- rev_app_distr, <- E'.
    now rewrite rev_involutive. }
  exists l, (rev r). repeat split.
  - now rewrite <- Em.
  - exact Hl.
  - apply forallb_forall. intros c Hc. rewrite forallb_forall in Hr.
    apply Hr. now apply in_rev.
  - intros c t Et. rewrite Et in Em. simpl in Em. now apply (Hhd _ _ Em).
  - intros c t Et. unfold strip, rstrip in Et.
    apply (f_equal (@rev _)) in Et.
    rewrite rev_involutive, rev_app_distr in Et. simpl in Et.
    now apply (Hhd' _ _ Et).
Qed.

(** *** Splitting on whitespace *)

Lemma split_ws_from_tokens (cur s : pystr) :
  forallb (fun c => negb (is_space c)) cur = true ->
  Forall is_token (split_ws_from cur s).
Proof.
  assert (Hrev : forall l, forallb (fun c => negb (is_space c)) l = true ->
                           forallb (fun c => negb (is_space c)) (rev l) = true).
  { intros l Hl. rewrite forallb_forall in *. intros c Hc.
    apply Hl. now apply in_rev. }
  assert (Hne : forall l : pystr, is_empty l = false -> rev l <> []).
  { intros [|c l] E; [discriminate|]. simpl. now destruct (rev l). }
  revert cur; induction s as [|c s IH]; intros cur Hcur; simpl.
  - destruct (is_empty cur) eqn:E; constructor; [|constructor].
    split; [now apply Hne | now apply Hrev].
  - destruct (is_space c) eqn:Hc.
    + destruct (is_empty cur) eqn:E; [now apply IH|].
      constructor; [|now apply IH].
      split; [now apply Hne | now apply Hrev].
    + apply IH. simpl. now rewrite Hc.
Qed.

(** Every token of [s.split()] is non-empty and free of whitespace. *)
Lemma split_ws_tokens (s : pystr) : Forall is_token (split_ws s).
Proof. now apply split_ws_from_tokens. Qed.

Lemma split_ws_from_concat (cur s : pystr) :
  List.concat (split_ws_from cur s)
  = rev cur ++ filter (fun c => negb (is_space c)) s.
Proof.
  revert cur; induction s as [|c s IH]; intros cur; simpl.
  - destruct cur as [|a cur]; simpl; [reflexivity|].
    now rewrite !app_nil_r.
  - destruct (is_space c); simpl.
    + destruct cur as [|a cur]; simpl; rewrite IH; reflexivity.
    + rewrite IH. simpl. now rewrite <- app_assoc.
Qed.

(** The tokens are the non-whitespace characters of [s], in order. *)
Lemma split_ws_concat (s : pystr) :
  List.concat (split_ws s) = filter (fun c => negb (is_space c)) s.
Proof. apply split_ws_from_concat. Qed.

(** *** Splitting on a separator *)

Lemma split_on_from_not_nil (sep : codepoint) (cur s : pystr) :
  split_on_from sep cur s <> [].
Proof.
  revert cur; induction s as [|c s IH]; intros cur; simpl.
  - discriminate.
  - destruct (c =? sep)%N; [discriminate | apply IH].
Qed.

Lemma join_cons (sep p : pystr) (ps : list pystr) :
  ps <> [] -> join sep (p :: ps) = p ++ sep ++ join sep ps.
Proof. destruct ps; [congruence | reflexivity]. Qed.

Lemma split_on_from_run (sep : codepoint) (p cur rest : pystr) :
  ~ In sep p ->
  split_on_from sep cur (p ++ rest) = split_on_from sep (rev p ++ cur) rest.
Proof.
  revert cur; induction p as [|c p IH]; intros cur Hp; simpl.
  - reflexivity.
  - destruct (N.eqb_spec c sep) as [->|_].
    + exfalso. apply Hp. now left.
    + rewrite IH by (intros H; apply Hp; now right).
      now rewrite <- app_assoc.
Qed.

(** [split_on] undoes [join]: the pieces of [sep.join(pieces)] are
    [pieces], when no piece holds the separator. *)
Lemma split_on_from_join (sep : codepoint) (pieces : list pystr) :
  forall (p cur : pystr),
    Forall (fun q => ~ In sep q) (p :: pieces) ->
    split_on_from sep cur (join [sep] (p :: pieces))
    = (rev cur ++ p) :: pieces.
Proof.
  induction pieces as [|q qs IH]; intros p cur H; inversion H as [|? ? Hp Hrest]; subst.
  - simpl. rewrite <- (app_nil_r p) at 1.
    rewrite split_on_from_run by assumption. simpl.
    now rewrite rev_app_distr, rev_involutive.
  - rewrite join_cons by discriminate.
    rewrite split_on_from_run by assumption.
    change ([sep] ++ join [sep] (q :: qs)) with (sep :: join [sep] (q :: qs)).
    cbn [split_on_from]. rewrite N.eqb_refl.
    rewrite rev_app_distr, rev_involutive.
    now rewrite (IH q [] Hrest).
Qed.

Lemma split_on_join (sep : codepoint) (pieces : list pystr) :
  pieces <> [] ->
  Forall (fun q => ~ In sep q) pieces ->
  split_on sep (join [sep] pieces) = pieces.
Proof.
  destruct pieces as [|p ps]; [congruence|]. intros _ H.
  unfold split_on. now rewrite split_on_from_join.
Qed.

(** ** The recommender: the loop *)

Section LoopFacts.

Variable lower : pystr -> pystr.
Variable query_words : list pystr.

Local Abbreviation body := (loop_body lower query_words).
Local Abbreviation cnt := (counted lower query_words).

Lemma is_empty_true (A : Type) (l : list A) : is_empty l = true <-> l = [].
Proof. destruct l; simpl; split; congruence. Qed.

Lemma is_empty_false (A : Type) (l : list A) : is_empty l = false <-> l <> [].
Proof. destruct l; simpl; split; congruence. Qed.

Lemma counted_tagged (book : Book) :
  tags book <> [] -> cnt book = match_score lower query_words book.
Proof.
  intros H. unfold counted. apply is_empty_false in H. now rewrite H.
Qed.

Lemma counted_untagged (book : Book) : tags book = [] -> cnt book = 0.
Proof. intros H. unfold counted. now rewrite H. Qed.

Lemma counted_pos_tagged (book : Book) : 0 < cnt book -> tags book <> [].
Proof.
  intros H E. rewrite (counted_untagged _ E) in H. lia.
Qed.

(** The body in one line: the comparison is made with [counted]. *)
Lemma loop_body_counted (st : Best) (book : Book) :
  body st book
  = if best_match_score st <? cnt book then mkBest (Some book) (cnt book)
    else st.
Proof.
  unfold loop_body, counted.
  destruct (is_empty (tags book)); [|reflexivity].
  now destruct (Nat.ltb_spec (best_match_score st) 0); [lia|].
Qed.

Lemma loop_body_score (st : Best) (book : Book) :
  best_match_score (body st book) = Nat.max (best_match_score st) (cnt book).
Proof.
  rewrite loop_body_counted.
  destruct (Nat.ltb_spec (best_match_score st) (cnt book)); simpl; lia.
Qed.

(** Books that do not beat the best so far leave the loop variables alone. *)
Lemma fold_no_better (books : list Book) (st : Best) :
  (forall b, In b books -> cnt b <= best_match_score st) ->
  fold_left body books st = st.
Proof.
  revert st; induction books as [|book rest IH]; intros st H; simpl.
  - reflexivity.
  - assert (E : body st book = st).
    { rewrite loop_body_counted.
      destruct (Nat.ltb_spec (best_match_score st) (cnt book)) as [Hlt|_];
        [|reflexivity].
      specialize (H book (or_introl eq_refl)). lia. }
    rewrite E. apply IH. intros b Hb. apply H. now right.
Qed.

(** The first book that reaches the largest score, if that score beats the
    starting one, is what the loop ends with. *)
Lemma fold_first_max (books : list Book) :
  forall (st : Best) (i : nat) (b : Book),
    nth_error books i = Some b ->
    best_match_score st < cnt b ->
    (forall j b', j < i -> nth_error books j = Some b' -> cnt b' < cnt b) ->
    (forall b', In b' books -> cnt b' <= cnt b) ->
    fold_left body books st = mkBest (Some b) (cnt b).
Proof.
  induction books as [|book rest IH]; intros st i b Hi Hst Hbefore Hall.
  - destruct i; discriminate.
  - destruct i as [|i]; simpl in Hi |- *.
    + injection Hi as ->.
      rewrite loop_body_counted.
      destruct (Nat.ltb_spec (best_match_score st) (cnt b)); [|lia].
      apply fold_no_better. intros b' Hb'. simpl. apply Hall. now right.
    + apply (IH _ i); auto.
      * rewrite loop_body_score.
        assert (cnt book < cnt b) by (apply (Hbefore 0); [lia | reflexivity]).
        lia.
      * intros j b' Hj Hb'. apply (Hbefore (S j)); [lia | exact Hb'].
      * intros b' Hb'. apply Hall. now right.
Qed.

(** Either no book beats the starting score and the loop variables are
    unchanged, or the loop ends with the first book of largest score. *)
Lemma fold_cases (books : list Book) :
  forall st : Best,
    ((forall b, In b books -> cnt b <= best_match_score st)
     /\ fold_left body books st = st)
    \/
    (exists i b,
        nth_error books i = Some b
        /\ best_match_score st < cnt b
        /\ (forall j b', j < i -> nth_error books j = Some b' -> cnt b' < cnt b)
        /\ (forall b', In b' books -> cnt b' <= cnt b)
        /\ fold_left body books st = mkBest (Some b) (cnt b)).
Proof.
  induction books as [|book rest IH]; intros st.
  - left. split; [intros b []|reflexivity].
  - simpl fold_left.
    pose proof (loop_body_score st book) as Hmax.
    pose proof (loop_body_counted st book) as Hbody.
    destruct (IH (body st book)) as [[Hle E] | (i & b & Hi & Hlt & Hbef & Hall & E)].
    + destruct (Nat.ltb_spec (best_match_score st) (cnt book)) as [Hnew|Hold].
      * right. exists 0, book. rewrite E, Hbody. simpl.
        repeat split; auto.
        -- intros j b' Hj. lia.
        -- intros b' [<- | Hb']; [lia|]. specialize (Hle b' Hb'). lia.
      * left. rewrite E, Hbody. split; [|reflexivity].
        intros b [<- | Hb]; [lia|]. specialize (Hle b Hb). lia.
    + right. exists (S i), b. rewrite E. simpl.
      repeat split; auto.
      * lia.
      * intros [|j] b' Hj Hb'; simpl in Hb'.
        -- injection Hb' as <-. lia.
        -- apply (Hbef j); [lia | exact Hb'].
      * intros b' [<- | Hb']; [lia | now apply Hall].
Qed.

(** The traced loop runs the plain loop and appends one event per book. *)
Lemma fold_traced (books : list Book) :
  forall (st : Best) (tr : list event),
    fold_left (loop_body_traced lower query_words) books (st, tr)
    = (fold_left body books st,
       tr ++ map (book_event lower query_words) books).
Proof.
  induction books as [|book rest IH]; intros st tr; simpl.
  - now rewrite app_nil_r.
  - unfold loop_body_traced at 2. unfold loop_body at 2. unfold book_event.
    simpl fst; simpl snd.
    destruct (is_empty (tags book)); rewrite IH, <- app_assoc; reflexivity.
Qed.

(** The relation [scan] and the fold describe the same loop. *)
Lemma scan_fold (books : list Book) :
  forall st : Best, scan lower query_words st books (fold_left body books st).
Proof.
  induction books as [|book rest IH]; intros st; simpl.
  - constructor.
  - unfold loop_body at 2.
    destruct (is_empty (tags book)) eqn:Et.
    + apply scan_continue; [now apply is_empty_true | apply IH].
    + apply is_empty_false in Et.
      destruct (Nat.ltb_spec (best_match_score st)
                             (match_score lower query_words book)).
      * apply scan_replace; auto.
      * apply scan_keep; auto.
Qed.

Lemma scan_deterministic (books : list Book) (st st1 st2 : Best) :
  scan lower query_words st books st1 ->
  scan lower query_words st books st2 ->
  st1 = st2.
Proof.
  intros H1; revert st2.
  induction H1 as [st | st book rest st' Ht _ IH
                   | st book rest st' Ht Hlt _ IH
                   | st book rest st' Ht Hle _ IH];
    intros st2 H2; inversion H2; subst;
    try congruence; try lia; now apply IH.
Qed.

End LoopFacts.

(** ** The recommender: the function *)

Section RecommendFacts.

Variable lower : pystr -> pystr.

Lemma strip_nil : strip [] = [].
Proof. reflexivity. Qed.

Lemma recommend_blank (q : pystr) (books : list Book) :
  forallb is_space q = true ->
  recommend_book_simple lower q books = None.
Proof.
  intros H. unfold recommend_book_simple.
  rewrite (strip_blank _ H). simpl. now rewrite orb_true_r.
Qed.

Lemma recommend_nonblank (q : pystr) (books : list Book) :
  strip q <> [] ->
  recommend_book_simple lower q books
  = best_book (fold_left (loop_body lower (split_ws (lower q))) books no_best).
Proof.
  intros H. unfold recommend_book_simple.
  destruct q as [|c q]; [now elim H|].
  apply is_empty_false in H. now rewrite H.
Qed.

Lemma recommend_traced_nonblank (q : pystr) (books : list Book) :
  strip q <> [] ->
  recommend_traced lower q books
  = (recommend_book_simple lower q books,
     map (book_event lower (split_ws (lower q))) books).
Proof.
  intros H. rewrite (recommend_nonblank q books H). unfold recommend_traced.
  destruct q as [|c q]; [now elim H|].
  apply is_empty_false in H. rewrite H. simpl orb. cbv iota.
  now rewrite fold_traced.
Qed.

Lemma recommend_traced_blank (q : pystr) (books : list Book) :
  forallb is_space q = true ->
  recommend_traced lower q books = (None, []).
Proof.
  intros H. unfold recommend_traced.
  rewrite (strip_blank _ H). simpl. now rewrite orb_true_r.
Qed.

Lemma blank_or_not (q : pystr) :
  {forallb is_space q = true} + {strip q <> []}.
Proof.
  destruct (forallb is_space q) eqn:E; [now left|].
  right. intros H. apply strip_nil_blank in H. congruence.
Qed.

(** Erasing the trace gives back the function. *)
Lemma recommend_traced_fst (q : pystr) (books : list Book) :
  fst (recommend_traced lower q books) = recommend_book_simple lower q books.
Proof.
  destruct (blank_or_not q) as [H|H].
  - now rewrite (recommend_traced_blank q books H), (recommend_blank q books H).
  - now rewrite (recommend_traced_nonblank q books H).
Qed.

(** Every call has a run, and the run returns what the function computes. *)
Lemma returns_recommend (q : pystr) (books : list Book) :
  returns lower q books (recommend_book_simple lower q books).
Proof.
  destruct (blank_or_not q) as [H|H].
  - rewrite (recommend_blank q books H). apply returns_blank.
    right. now apply strip_blank.
  - rewrite (recommend_nonblank q books H). apply returns_best; auto.
    + intros ->. now apply H.
    + apply scan_fold.
Qed.

Lemma returns_unique (q : pystr) (books : list Book) (r1 r2 : option Book) :
  returns lower q books r1 -> returns lower q books r2 -> r1 = r2.
Proof.
  intros H1 H2.
  destruct H1 as [q books Hb1 | q books st1 Hq1 Hs1 Hscan1];
    inversion H2 as [? ? Hb2 | ? ? st2 Hq2 Hs2 Hscan2]; subst.
  - reflexivity.
  - destruct Hb1; contradiction.
  - destruct Hb2; contradiction.
  - f_equal. eapply scan_deterministic; eassumption.
Qed.

(** *** The score *)

Lemma match_score_length (query_words : list pystr) (book : Book) :
  match_score lower query_words book
  = List.length
      (filter (fun word => contains (lower (join [32%N] (tags book))) word)
              query_words).
Proof. unfold match_score. now rewrite py_sum_ones. Qed.

Lemma match_score_cons (word : pystr) (query_words : list pystr) (book : Book) :
  match_score lower (word :: query_words) book
  = (if contains (lower (join [32%N] (tags book))) word then 1 else 0)
    + match_score lower query_words book.
Proof.
  rewrite !match_score_length. simpl.
  now destruct (contains _ word).
Qed.

Lemma match_score_le (query_words : list pystr) (book : Book) :
  match_score lower query_words book <= List.length query_words.
Proof. rewrite match_score_length. apply filter_length_le. Qed.

Lemma match_score_counts (query_words : list pystr) (book : Book) :
  count_tokens (token_matches lower book) query_words
               (match_score lower query_words book).
Proof.
  induction query_words as [|word rest IH].
  - constructor.
  - rewrite match_score_cons.
    destruct (contains (lower (join [32%N] (tags book))) word) eqn:E.
    + apply count_hit; [|exact IH]. now apply contains_spec.
    + apply count_miss; [|exact IH].
      intros H. apply contains_spec in H. congruence.
Qed.

Lemma match_score_empty_text (query_words : list pystr) (book : Book) :
  Forall is_token query_words ->
  lower (join [32%N] (tags book)) = [] ->
  match_score lower query_words book = 0.
Proof.
  intros Htok Htext. rewrite match_score_length, Htext.
  induction Htok as [|w ws [Hw _] _ IH]; [reflexivity|].
  cbn [filter]. now rewrite (contains_nil_l w Hw).
Qed.

End RecommendFacts.

Lemma count_tokens_unique (P : pystr -> Prop) (words : list pystr) (n m : nat) :
  count_tokens P words n -> count_tokens P words m -> n = m.
Proof.
  intros Hn; revert m.
  induction Hn as [|w ws n Hw _ IH|w ws n Hw _ IH]; intros m Hm;
    inversion Hm; subst; try contradiction; auto.
Qed.

(** A token matches inside a longer tag, and a repeated token counts each
    time. *)
Example match_inside_a_tag :
  match_score lower_basic (split_ws (lower_basic (lit "Друж друж")))
              friendship_book = 2.
Proof. vm_compute. reflexivity. Qed.

(** *** What the function returns *)

Section ResultFacts.

Variable lower : pystr -> pystr.

Lemma counted_le (query_words : list pystr) (b : Book) (n : nat) :
  (tags b <> [] -> match_score lower query_words b <= n) ->
  counted lower query_words b <= n.
Proof.
  intros H. unfold counted. destruct (is_empty (tags b)) eqn:E; [lia|].
  apply H. now apply is_empty_false.
Qed.

Lemma counted_lt (query_words : list pystr) (b : Book) (n : nat) :
  0 < n ->
  (tags b <> [] -> match_score lower query_words b < n) ->
  counted lower query_words b < n.
Proof.
  intros Hn H. unfold counted. destruct (is_empty (tags b)) eqn:E; [lia|].
  apply H. now apply is_empty_false.
Qed.

(** For a query that is not blank: either nothing is returned and every
    book that is scored scores 0, or the book returned is the first one
    of largest score, and that score is positive. *)
Lemma recommend_cases (q : pystr) (books : list Book) :
  strip q <> [] ->
  let query_words := split_ws (lower q) in
  (recommend_book_simple lower q books = None
   /\ forall b, In b books -> counted lower query_words b = 0)
  \/
  (exists i b,
      recommend_book_simple lower q books = Some b
      /\ nth_error books i = Some b
      /\ tags b <> []
      /\ 0 < match_score lower query_words b
      /\ (forall j b', j < i -> nth_error books j = Some b' ->
                       counted lower query_words b'
                       < match_score lower query_words b)
      /\ (forall b', In b' books ->
                     counted lower query_words b'
                     <= match_score lower query_words b)).
Proof.
  intros Hq query_words. rewrite (recommend_nonblank lower q books Hq).
  fold query_words.
  destruct (fold_cases lower query_words books no_best)
    as [[Hle E] | (i & b & Hi & Hlt & Hbef & Hall & E)]; rewrite E.
  - left. split; [reflexivity|].
    intros b Hb. specialize (Hle b Hb). simpl in Hle. lia.
  - right. exists i, b. simpl in Hlt.
    assert (Ht : tags b <> [])
      by (apply (counted_pos_tagged lower query_words); exact Hlt).
    rewrite (counted_tagged lower query_words b Ht) in *.
    repeat split; auto.
Qed.

(** The result depends on [lower] only through the query and the joined
    tags of the books. *)
Lemma recommend_lower_ext (lower' : pystr -> pystr) (q : pystr)
    (books : list Book) :
  lower q = lower' q ->
  (forall b, In b books ->
             lower (join [32%N] (tags b)) = lower' (join [32%N] (tags b))) ->
  recommend_book_simple lower q books = recommend_book_simple lower' q books.
Proof.
  intros Hq Hb. unfold recommend_book_simple. rewrite Hq.
  destruct (is_empty q || is_empty (strip q)); [reflexivity|].
  f_equal. generalize no_best.
  induction books as [|book rest IH]; intros st; simpl; [reflexivity|].
  assert (E : loop_body lower (split_ws (lower' q)) st book
              = loop_body lower' (split_ws (lower' q)) st book).
  { unfold loop_body, match_score.
    change (lit " ") with [32%N]. now rewrite (Hb book (or_introl eq_refl)). }
  rewrite E. apply IH. intros b Hin. apply Hb. now right.
Qed.

End ResultFacts.

Lemma lower_basic_plain (s : pystr) :
  forallb plain_cp s = true -> lower_basic s = s.
Proof.
  induction s as [|c s IH]; simpl; [reflexivity|].
  rewrite andb_true_iff. intros [Hc Hs]. rewrite (IH Hs). f_equal.
  unfold plain_cp in Hc. unfold lower_cp.
  rewrite orb_true_iff, andb_true_iff, N.eqb_eq, !N.leb_le in Hc.
  destruct (N.leb_spec 65 c), (N.leb_spec c 90),
           (N.leb_spec 1040 c), (N.leb_spec c 1071),
           (N.leb_spec 1024 c), (N.leb_spec c 1039); simpl; try reflexivity; lia.
Qed.

(** ** Properties of the recommender *)

(** C1.  For a query that is not blank after trimming, the scorer records,
    for every book in turn, either that it skipped the book (no tags) or the
    book's match score, and that score is the number of query tokens (the
    lowercased query split on whitespace runs, a repeated token counted each
    time it occurs) that are substrings of the book's tags joined by single
    spaces and lowercased.  Each token adds at most one to a book's score,
    so the score never exceeds the number of tokens. *)
Theorem match_score_counts_matching_tokens
    (lower : pystr -> pystr) (user_query : pystr) (all_books : list Book) :
  strip user_query <> [] ->
  let query_words := split_ws (lower user_query) in
  recommend_traced lower user_query all_books
  = (recommend_book_simple lower user_query all_books,
     map (book_event lower query_words) all_books)
  /\ Forall is_token query_words
  /\ forall book,
      count_tokens (token_matches lower book) query_words
                   (match_score lower query_words book)
      /\ (forall n, count_tokens (token_matches lower book) query_words n ->
                    n = match_score lower query_words book)
      /\ match_score lower query_words book <= List.length query_words
      /\ (forall word, match_score lower [word] book <= 1).
Proof.
  intros Hq query_words. split; [|split].
  - now apply recommend_traced_nonblank.
  - apply split_ws_tokens.
  - intros book. pose proof (match_score_counts lower query_words book) as Hc.
    repeat split.
    + exact Hc.
    + intros n Hn. eapply count_tokens_unique; eassumption.
    + apply match_score_le.
    + intros word. apply (match_score_le lower [word] book).
Qed.

(** C5.  A query that is empty or holds only whitespace makes the scorer
    return none for every book list, with no book skipped or scored on the
    way; the call has a run, and every run of it returns none. *)
Theorem blank_query_returns_none
    (lower : pystr -> pystr) (user_query : pystr) (all_books : list Book) :
  forallb is_space user_query = true ->
  recommend_book_simple lower user_query all_books = None
  /\ recommend_traced lower user_query all_books = (None, [])
  /\ returns lower user_query all_books None
  /\ (forall r, returns lower user_query all_books r -> r = None).
Proof.
  intros Hq.
  assert (Hnone : returns lower user_query all_books None).
  { rewrite <- (recommend_blank lower user_query all_books Hq).
    apply returns_recommend. }
  repeat split.
  - now apply recommend_blank.
  - now apply recommend_traced_blank.
  - exact Hnone.
  - intros r Hr. eapply returns_unique; eassumption.
Qed.

(** C6.  A book without tags is skipped: an iteration on it leaves the loop
    variables as they were, the scorer never records a score for it, and it
    is never the book returned, whatever the query and the book list. *)
Theorem untagged_book_never_recommended
    (lower : pystr -> pystr) (user_query : pystr) (all_books : list Book)
    (book : Book) :
  tags book = [] ->
  (forall query_words st, loop_body lower query_words st book = st)
  /\ (forall n,
        ~ In (Scored book n) (snd (recommend_traced lower user_query all_books)))
  /\ recommend_book_simple lower user_query all_books <> Some book.
Proof.
  intros Ht. split; [|split].
  - intros query_words st. unfold loop_body. now rewrite Ht.
  - intros n Hin. destruct (blank_or_not user_query) as [Hq|Hq].
    + now rewrite (recommend_traced_blank lower user_query all_books Hq) in Hin.
    + rewrite (recommend_traced_nonblank lower user_query all_books Hq) in Hin.
      simpl in Hin. apply in_map_iff in Hin as (b & Hb & _).
      unfold book_event in Hb. destruct (is_empty (tags b)) eqn:E.
      * discriminate.
      * injection Hb as -> _. rewrite Ht in E. discriminate.
  - intros Hr. destruct (blank_or_not user_query) as [Hq|Hq].
    + now rewrite (recommend_blank lower user_query all_books Hq) in Hr.
    + rewrite (recommend_nonblank lower user_query all_books Hq) in Hr.
      destruct (fold_cases lower (split_ws (lower user_query)) all_books no_best)
        as [[_ E] | (i & b & _ & Hlt & _ & _ & E)]; rewrite E in Hr.
      * discriminate.
      * injection Hr as ->.
        apply (counted_pos_tagged lower (split_ws (lower user_query)) book);
          [lia | exact Ht].
Qed.

Section InWorld.

Variable lower : pystr -> pystr.
Variable query_words : list pystr.

Lemma iteration_run (st : BestRef) (book : ref) (w : World) :
  iteration lower query_words st book w
  = (if is_empty (tags (objects w book)) then st
     else if best_ref_score st
             <? match_score lower query_words (objects w book)
          then mkBestRef (Some book)
                         (match_score lower query_words (objects w book))
          else st,
     w).
Proof.
  unfold iteration, bind, get_tags, ret, match_score.
  now destruct (is_empty (tags (objects w book))).
Qed.

Lemma for_each_step (st : BestRef) (book : ref) (rest : list ref) (w : World) :
  for_each (iteration lower query_words) (book :: rest) st w
  = for_each (iteration lower query_words) rest
             (fst (iteration lower query_words st book w)) w.
Proof.
  cbn [for_each]. unfold bind at 1. now rewrite iteration_run.
Qed.

(** The loop leaves the world as it found it. *)
Lemma for_each_world (books : list ref) :
  forall st w,
    snd (for_each (iteration lower query_words) books st w) = w.
Proof.
  induction books as [|book rest IH]; intros st w; [reflexivity|].
  rewrite for_each_step. apply IH.
Qed.

(** What the loop ends with depends on the world only through the tags of
    the books it is given. *)
Lemma for_each_agree (books : list ref) (w1 w2 : World) :
  (forall book, In book books ->
                tags (objects w1 book) = tags (objects w2 book)) ->
  forall st,
    fst (for_each (iteration lower query_words) books st w1)
    = fst (for_each (iteration lower query_words) books st w2).
Proof.
  induction books as [|book rest IH]; intros H st; [reflexivity|].
  rewrite !for_each_step.
  assert (E : fst (iteration lower query_words st book w1)
              = fst (iteration lower query_words st book w2)).
  { rewrite !iteration_run. cbn [fst]. unfold match_score.
    now rewrite (H book (or_introl eq_refl)). }
  rewrite E. apply IH. intros b Hb. apply H. now right.
Qed.

(** The loop on references selects the object the loop on books selects. *)
Lemma for_each_books (books : list ref) (w : World) :
  forall st,
    mkBest
      (option_map (objects w)
         (best_ref (fst (for_each (iteration lower query_words) books st w))))
      (best_ref_score
         (fst (for_each (iteration lower query_words) books st w)))
    = fold_left (loop_body lower query_words) (map (objects w) books)
        (mkBest (option_map (objects w) (best_ref st)) (best_ref_score st)).
Proof.
  induction books as [|book rest IH]; intros st; [reflexivity|].
  rewrite for_each_step, IH, iteration_run. cbn [fst map fold_left].
  f_equal. unfold loop_body. cbn [best_match_score].
  destruct (is_empty (tags (objects w book))); [reflexivity|].
  now destruct (best_ref_score st
                <? match_score lower query_words (objects w book)).
Qed.

End InWorld.

(** C9.  Run among the program's state (the book objects, the rows of the
    table, the database address), the scorer changes none of it, and what it
    selects is fixed by the query, the list of book references and the tags
    of those books: two runs on equal queries and equal book lists select
    the same book object, or none both times, whatever else differs between
    the two states.  The object selected is the book that
    [recommend_book_simple] returns on the books the references stand
    for. *)
Theorem recommend_pure_and_deterministic
    (lower : pystr -> pystr) (query1 query2 : pystr)
    (books1 books2 : list ref) (w1 w2 : World) :
  query1 = query2 ->
  books1 = books2 ->
  (forall book, In book books1 ->
                tags (objects w1 book) = tags (objects w2 book)) ->
  fst (recommend_in_world lower query1 books1 w1)
  = fst (recommend_in_world lower query2 books2 w2)
  /\ snd (recommend_in_world lower query1 books1 w1) = w1
  /\ snd (recommend_in_world lower query2 books2 w2) = w2
  /\ option_map (objects w1) (fst (recommend_in_world lower query1 books1 w1))
     = recommend_book_simple lower query1 (map (objects w1) books1).
Proof.
  intros <- <- Hsame.
  assert (Hworld : forall w,
             snd (recommend_in_world lower query1 books1 w) = w).
  { intros w. unfold recommend_in_world.
    destruct (is_empty query1 || is_empty (strip query1)); [reflexivity|].
    unfold bind.
    pose proof (for_each_world lower (split_ws (lower query1)) books1
                  (mkBestRef None 0) w) as Hw.
    destruct (for_each _ books1 _ w) as [st w']. exact Hw. }
  split; [|split; [apply Hworld | split; [apply Hworld|]]].
  - unfold recommend_in_world.
    destruct (is_empty query1 || is_empty (strip query1)); [reflexivity|].
    unfold bind.
    pose proof (for_each_agree lower (split_ws (lower query1)) books1 w1 w2
                  Hsame (mkBestRef None 0)) as Hst.
    destruct (for_each _ books1 _ w1) as [st1 w1'].
    destruct (for_each _ books1 _ w2) as [st2 w2'].
    cbn [fst] in *. now rewrite Hst.
  - unfold recommend_in_world, recommend_book_simple.
    destruct (is_empty query1 || is_empty (strip query1)); [reflexivity|].
    unfold bind.
    pose proof (for_each_books lower (split_ws (lower query1)) books1 w1
                  (mkBestRef None 0)) as Hb.
    destruct (for_each _ books1 _ w1) as [st w'].
    cbn [fst ret] in *.
    change (mkBest (option_map (objects w1) (best_ref (mkBestRef None 0)))
                   (best_ref_score (mkBestRef None 0)))
      with no_best in Hb.
    now rewrite <- Hb.
Qed.

(** C10.  On the empty book list the scorer returns none for every query. *)
Theorem recommend_no_books (lower : pystr -> pystr) (user_query : pystr) :
  recommend_book_simple lower user_query [] = None.
Proof.
  unfold recommend_book_simple.
  now destruct (is_empty user_query || is_empty (strip user_query)).
Qed.

(** C3.  A book takes the place of the current best only when its score is
    strictly greater than the best score so far; a book whose score is equal
    or smaller leaves the loop variables as they were.  Hence the book
    returned is the earliest book of the list that reaches the largest score,
    when that score is not 0: every scored book before it has a strictly
    smaller score and no scored book has a larger one. *)
Theorem ties_keep_the_earlier_book
    (lower : pystr -> pystr) (user_query : pystr) (all_books : list Book) :
  let query_words := split_ws (lower user_query) in
  (forall st book,
      loop_body lower query_words st book <> st ->
      tags book <> []
      /\ best_match_score st < match_score lower query_words book
      /\ loop_body lower query_words st book
         = mkBest (Some book) (match_score lower query_words book))
  /\ (forall st book,
        match_score lower query_words book <= best_match_score st ->
        loop_body lower query_words st book = st)
  /\ (forall i b,
        strip user_query <> [] ->
        nth_error all_books i = Some b ->
        tags b <> [] ->
        0 < match_score lower query_words b ->
        (forall j b', j < i -> nth_error all_books j = Some b' ->
                      tags b' <> [] ->
                      match_score lower query_words b'
                      < match_score lower query_words b) ->
        (forall b', In b' all_books -> tags b' <> [] ->
                    match_score lower query_words b'
                    <= match_score lower query_words b) ->
        recommend_book_simple lower user_query all_books = Some b)
  /\ (forall b,
        recommend_book_simple lower user_query all_books = Some b ->
        exists i,
          nth_error all_books i = Some b
          /\ tags b <> []
          /\ 0 < match_score lower query_words b
          /\ (forall j b', j < i -> nth_error all_books j = Some b' ->
                           tags b' <> [] ->
                           match_score lower query_words b'
                           < match_score lower query_words b)
          /\ (forall b', In b' all_books -> tags b' <> [] ->
                         match_score lower query_words b'
                         <= match_score lower query_words b)).
Proof.
  cbv zeta. split; [|split; [|split]].
  - intros st book Hchg. unfold loop_body in *.
    destruct (is_empty (tags book)) eqn:Et; [now elim Hchg|].
    apply is_empty_false in Et.
    destruct (Nat.ltb_spec (best_match_score st)
                           (match_score lower (split_ws (lower user_query)) book));
      [auto | now elim Hchg].
  - intros st book Hle. unfold loop_body.
    destruct (is_empty (tags book)); [reflexivity|].
    now destruct (Nat.ltb_spec (best_match_score st)
                               (match_score lower (split_ws (lower user_query)) book)); [lia|].
  - intros i b Hq Hi Ht Hpos Hbef Hall.
    rewrite (recommend_nonblank lower user_query all_books Hq).
    rewrite (fold_first_max lower (split_ws (lower user_query)) all_books no_best i b);
      rewrite ?(counted_tagged lower (split_ws (lower user_query)) b Ht); auto.
    + intros j b' Hj Hb'. apply counted_lt; [exact Hpos|]. now apply (Hbef j).
    + intros b' Hb'. apply counted_le. now apply Hall.
  - intros b Hr. destruct (blank_or_not user_query) as [Hq|Hq].
    + now rewrite (recommend_blank lower user_query all_books Hq) in Hr.
    + destruct (recommend_cases lower user_query all_books Hq)
        as [[E _] | (i & b0 & E & Hi & Ht & Hpos & Hbef & Hall)];
        rewrite E in Hr; [discriminate|].
      injection Hr as <-. exists i. repeat split; auto.
      * intros j b' Hj Hb' Ht'.
        rewrite <- (counted_tagged lower (split_ws (lower user_query)) b' Ht'). now apply (Hbef j).
      * intros b' Hb' Ht'.
        rewrite <- (counted_tagged lower (split_ws (lower user_query)) b' Ht'). now apply Hall.
Qed.

(** C4.  For a query that is not blank after trimming, the scorer returns
    none exactly when no book it scores has a score above 0, and a book that
    is returned has a score above 0.  When lowercasing the empty string
    gives the empty string, a book without tags would score 0 as well, so
    none is returned exactly when no book of the list scores above 0. *)
Theorem none_iff_no_positive_score
    (lower : pystr -> pystr) (user_query : pystr) (all_books : list Book) :
  strip user_query <> [] ->
  let query_words := split_ws (lower user_query) in
  (recommend_book_simple lower user_query all_books = None
   <-> (forall b, In b all_books -> tags b <> [] ->
                  match_score lower query_words b = 0))
  /\ (forall b, recommend_book_simple lower user_query all_books = Some b ->
                0 < match_score lower query_words b)
  /\ (lower [] = [] ->
      (recommend_book_simple lower user_query all_books = None
       <-> (forall b, In b all_books ->
                      match_score lower query_words b = 0))).
Proof.
  intros Hq. cbv zeta.
  assert (Hiff : recommend_book_simple lower user_query all_books = None
                 <-> (forall b, In b all_books -> tags b <> [] ->
                                match_score lower (split_ws (lower user_query)) b = 0)).
  { destruct (recommend_cases lower user_query all_books Hq)
      as [[E Hzero] | (i & b0 & E & Hi & Ht & Hpos & _)];
      rewrite E.
    - split; [|reflexivity]. intros _ b Hb Ht.
      rewrite <- (counted_tagged lower (split_ws (lower user_query)) b Ht). now apply Hzero.
    - split; [discriminate|]. intros H.
      specialize (H b0 (nth_error_In _ _ Hi) Ht). lia. }
  split; [exact Hiff | split].
  - intros b Hr.
    destruct (recommend_cases lower user_query all_books Hq)
      as [[E _] | (i & b0 & E & _ & _ & Hpos & _)];
      rewrite E in Hr; [discriminate|].
    now injection Hr as <-.
  - intros Hnil. rewrite Hiff. split.
    + intros H b Hb. destruct (tags b) as [|t ts] eqn:Et.
      * apply match_score_empty_text; [apply split_ws_tokens|].
        now rewrite Et.
      * apply H; [exact Hb | now rewrite Et].
    + intros H b Hb _. now apply H.
Qed.

(** C2.  After the bootstrap on an empty table the seven seed books are
    listed in their insertion order, and on that list the query "хочу
    мотивацию и практику" gets the first of them, "Изучаем Python", tagged
    мотивация, учеба, развитие, практика.  This holds for every case mapping
    that leaves text of lowercase Cyrillic letters and spaces unchanged. *)
Theorem scenario_motivation_and_practice (lower : pystr -> pystr) :
  (forall s, forallb plain_cp s = true -> lower s = s) ->
  recommend_book_simple lower (lit "хочу мотивацию и практику")
    (select_all (create_db_and_tables []))
  = Some (mkBook (Some 1%Z) (lit "Изучаем Python") (lit "Марк Лутц")
            [lit "мотивация"; lit "учеба"; lit "развитие"; lit "практика"]).
Proof.
  intros Hplain.
  rewrite (recommend_lower_ext lower (fun s => s)).
  - vm_compute. reflexivity.
  - apply Hplain. vm_compute. reflexivity.
  - intros b Hb. apply Hplain. revert b Hb. apply Forall_forall.
    repeat constructor.
Qed.

(** In that scenario only the token "и" occurs in the tags: every seed book
    scores 1, and the first one is kept. *)
Example scenario_scores :
  let query_words := split_ws (lit "хочу мотивацию и практику") in
  query_words = [lit "хочу"; lit "мотивацию"; lit "и"; lit "практику"]
  /\ map (match_score (fun s => s) query_words) (create_db_and_tables [])
     = [1; 1; 1; 1; 1; 1; 1]
  /\ contains (lit "мотивация учеба развитие практика") (lit "мотивацию")
     = false
  /\ contains (lit "мотивация учеба развитие практика") (lit "практику")
     = false.
Proof. vm_compute. repeat split. Qed.

(** ** The creation form and the bootstrap *)

Lemma join_nil_inv (sep : codepoint) (pieces : list pystr) :
  pieces <> [] -> join [sep] pieces = [] -> pieces = [[]].
Proof.
  destruct pieces as [|p [|q qs]]; intros Hne E.
  - congruence.
  - simpl in E. now subst.
  - rewrite join_cons in E by discriminate. destruct p; discriminate.
Qed.

(** C7.  The form handler turns the tags field into the pieces between its
    commas, each trimmed, without the pieces that are empty after trimming,
    and stores a book with that tag list: the field "x, y ,  z" gives the
    tags x, y, z and the empty field gives no tags. *)
Theorem form_tags_split_trimmed_nonempty :
  (forall pieces : list pystr,
      pieces <> [] ->
      Forall (fun piece => ~ In 44%N piece) pieces ->
      parse_tags (join [44%N] pieces)
      = map strip (filter (fun piece => negb (is_empty (strip piece))) pieces))
  /\ (forall db title author field,
        create_book_via_form db title author field
        = (db ++ [mkBook (Some (next_id db)) title author (parse_tags field)],
           RedirectResponse (lit "/library") 303))
  /\ (forall db,
        map tags
            (fst (create_book_via_form db (lit "Test") (lit "A")
                    (lit "x, y ,  z")))
        = map tags db ++ [[lit "x"; lit "y"; lit "z"]])
  /\ (forall db,
        map tags
            (fst (create_book_via_form db (lit "Test") (lit "A") (lit "")))
        = map tags db ++ [[]]).
Proof.
  split; [|split; [|split]].
  - intros pieces Hne Hsep. unfold parse_tags.
    destruct (is_empty (join [44%N] pieces)) eqn:E.
    + apply is_empty_true in E.
      now rewrite (join_nil_inv 44%N pieces Hne E).
    + do 2 f_equal. exact (split_on_join 44%N pieces Hne Hsep).
  - reflexivity.
  - intros db. unfold create_book_via_form, session_add. simpl fst.
    now rewrite map_app.
  - intros db. unfold create_book_via_form, session_add. simpl fst.
    now rewrite map_app.
Qed.

(** C8.  On a table without books the bootstrap stores the seven seed books,
    in the order of the literal, under the keys 1 to 7; on a table that has
    a book it stores nothing.  Running it again therefore changes nothing:
    after two startups from an empty table there are still seven books. *)
Theorem bootstrap_seeds_only_an_empty_table :
  (map id (create_db_and_tables [])
   = [Some 1; Some 2; Some 3; Some 4; Some 5; Some 6; Some 7]%Z
   /\ map (fun b => (title b, author b, tags b)) (create_db_and_tables [])
      = map (fun b => (title b, author b, tags b)) initial_books
   /\ List.length initial_books = 7)
  /\ (forall db, db <> [] -> create_db_and_tables db = db)
  /\ (forall db,
        create_db_and_tables (create_db_and_tables db)
        = create_db_and_tables db)
  /\ List.length (create_db_and_tables (create_db_and_tables [])) = 7.
Proof.
  assert (Hkeep : forall db, db <> [] -> create_db_and_tables db = db).
  { intros [|b db] H; [congruence | reflexivity]. }
  split; [|split; [exact Hkeep | split]].
  - split; [|split]; vm_compute; reflexivity.
  - intros [|b db].
    + apply Hkeep. vm_compute. discriminate.
    + reflexivity.
  - vm_compute. reflexivity.
Qed.

(** ** Instances *)

Lemma match_score_counts_matching_tokens_witness :
  strip (lit " И и дружба хочу ") <> []
  /\ recommend_traced lower_basic (lit " И и дружба хочу ")
       [untagged_book; prince_book]
     = (Some prince_book, [Skipped untagged_book; Scored prince_book 3]).
Proof.
  assert (H : strip (lit " И и дружба хочу ") <> [])
    by (vm_compute; discriminate).
  split; [exact H|].
  rewrite (proj1 (match_score_counts_matching_tokens lower_basic
                    (lit " И и дружба хочу ")
                    [untagged_book; prince_book] H)).
  vm_compute. reflexivity.
Defined.

Lemma blank_query_returns_none_witness :
  forallb is_space (lit "   ") = true
  /\ recommend_book_simple lower_basic (lit "   ") initial_books = None.
Proof.
  split; [reflexivity|].
  exact (proj1 (blank_query_returns_none lower_basic (lit "   ")
                  initial_books eq_refl)).
Defined.

Lemma untagged_book_never_recommended_witness :
  tags untagged_book = []
  /\ recommend_book_simple lower_basic (lit "дружба")
       [untagged_book; prince_book] <> Some untagged_book.
Proof.
  split; [reflexivity|].
  exact (proj2 (proj2 (untagged_book_never_recommended lower_basic
                         (lit "дружба") [untagged_book; prince_book]
                         untagged_book eq_refl))).
Defined.

Lemma recommend_pure_and_deterministic_witness :
  fst (recommend_in_world lower_basic (lit "дружба") [0; 1] world_at_startup)
  = fst (recommend_in_world lower_basic (lit "дружба") [0; 1] world_later)
  /\ snd (recommend_in_world lower_basic (lit "дружба") [0; 1] world_later)
     = world_later.
Proof.
  assert (H : forall book, In book [0; 1] ->
                tags (objects world_at_startup book)
                = tags (objects world_later book)).
  { intros book [<- | [<- | []]]; reflexivity. }
  destruct (recommend_pure_and_deterministic lower_basic (lit "дружба")
              (lit "дружба") [0; 1] [0; 1] world_at_startup world_later
              eq_refl eq_refl H) as (Hsel & _ & Hw & _).
  split; [exact Hsel | exact Hw].
Defined.

Lemma ties_keep_the_earlier_book_witness :
  recommend_book_simple lower_basic (lit "Дружба")
    [friendship_book; prince_book] = Some friendship_book.
Proof.
  apply (proj1 (proj2 (proj2
           (ties_keep_the_earlier_book lower_basic (lit "Дружба")
              [friendship_book; prince_book]))) 0 friendship_book).
  - vm_compute; discriminate.
  - reflexivity.
  - discriminate.
  - vm_compute. lia.
  - intros j b' Hj. lia.
  - intros b' [<- | [<- | []]] _; vm_compute; lia.
Defined.

Lemma none_iff_no_positive_score_witness :
  strip (lit "космос") <> []
  /\ (recommend_book_simple lower_basic (lit "космос") initial_books = None
      <-> (forall b, In b initial_books -> tags b <> [] ->
                     match_score lower_basic
                       (split_ws (lower_basic (lit "космос"))) b = 0)).
Proof.
  assert (H : strip (lit "космос") <> []) by (vm_compute; discriminate).
  split; [exact H|].
  exact (proj1 (none_iff_no_positive_score lower_basic (lit "космос")
                  initial_books H)).
Defined.

Lemma scenario_motivation_and_practice_witness :
  recommend_book_simple lower_basic (lit "хочу мотивацию и практику")
    (select_all (create_db_and_tables []))
  = Some (mkBook (Some 1%Z) (lit "Изучаем Python") (lit "Марк Лутц")
            [lit "мотивация"; lit "учеба"; lit "развитие"; lit "практика"]).
Proof.
  exact (scenario_motivation_and_practice lower_basic lower_basic_plain).
Defined.

Lemma form_tags_split_trimmed_nonempty_witness :
  parse_tags (join [44%N] [lit "x"; lit " y "; lit "  z"; lit " "])
  = map strip
        (filter (fun piece => negb (is_empty (strip piece)))
                [lit "x"; lit " y "; lit "  z"; lit " "]).
Proof.
  apply (proj1 form_tags_split_trimmed_nonempty).
  - discriminate.
  - repeat constructor; vm_compute; intuition discriminate.
Defined.

Lemma bootstrap_seeds_only_an_empty_table_witness :
  [untagged_book] <> []
  /\ create_db_and_tables [untagged_book] = [untagged_book].
Proof.
  assert (H : [untagged_book] <> []) by discriminate.
  split; [exact H|].
  exact (proj1 (proj2 bootstrap_seeds_only_an_empty_table) [untagged_book] H).
Defined.

(** ** The database address *)

Lemma starts_with_app (w rest : pystr) : starts_with (w ++ rest) w = true.
Proof. apply starts_with_spec. now exists rest. Qed.

Lemma replace_first_prefix (old new rest : pystr) :
  replace_first old new (old ++ rest) = new ++ rest.
Proof.
  assert (E : replace_first old new (old ++ rest)
              = new ++ skipn (List.length old) (old ++ rest)).
  { destruct (old ++ rest) eqn:Es; simpl; rewrite <- Es, starts_with_app;
      reflexivity. }
  rewrite E, skipn_app, skipn_all, Nat.sub_diag. reflexivity.
Qed.

(** X1.  An address that starts with "postgres://" has that prefix, and nothing
    else, replaced by "postgresql://"; any other address is used as it is;
    without the variable the local SQLite file is used.  The address
    computed never starts with "postgres://", so computing it from its own
    result changes nothing. *)
Theorem database_url_normalised :
  (forall rest,
      database_url (Some (lit "postgres://" ++ rest))
      = lit "postgresql://" ++ rest)
  /\ (forall url,
        starts_with url (lit "postgres://") = false ->
        database_url (Some url) = url)
  /\ database_url None = lit "sqlite:///database.db"
  /\ (forall env,
        starts_with (database_url env) (lit "postgres://") = false)
  /\ (forall env,
        database_url (Some (database_url env)) = database_url env).
Proof.
  assert (Hpre : forall rest,
             database_url (Some (lit "postgres://" ++ rest))
             = lit "postgresql://" ++ rest).
  { intros rest. unfold database_url.
    now rewrite starts_with_app, replace_first_prefix. }
  assert (Hother : forall url,
             starts_with url (lit "postgres://") = false ->
             database_url (Some url) = url).
  { intros url H. unfold database_url. now rewrite H. }
  assert (Hnever : forall env,
             starts_with (database_url env) (lit "postgres://") = false).
  { intros [url|].
    - destruct (starts_with url (lit "postgres://")) eqn:E.
      + apply starts_with_spec in E as [rest ->]. rewrite Hpre. reflexivity.
      + now rewrite Hother.
    - reflexivity. }
  split; [exact Hpre | split; [exact Hother | split; [|split]]].
  - vm_compute. reflexivity.
  - exact Hnever.
  - intros env. apply Hother, Hnever.
Qed.

(** ** The tags field: what is stored *)

Lemma substring_refl (s : pystr) : substring s s.
Proof. exists [], []. now rewrite app_nil_r. Qed.

Lemma substring_trans (a b c : pystr) :
  substring a b -> substring b c -> substring a c.
Proof.
  intros (p1 & q1 & ->) (p2 & q2 & ->).
  exists (p2 ++ p1), (q1 ++ q2). now rewrite <- !app_assoc.
Qed.

Lemma substring_in (w s : pystr) (c : codepoint) :
  substring w s -> In c w -> In c s.
Proof.
  intros (pre & post & ->) H. apply in_or_app. right.
  apply in_or_app. now left.
Qed.

Lemma in_join_substring (sep p : pystr) (ps : list pystr) :
  In p ps -> substring p (join sep ps).
Proof.
  induction ps as [|q qs IH]; intros H; [destruct H|].
  destruct qs as [|q' qs].
  - destruct H as [-> | []]. apply substring_refl.
  - rewrite join_cons by discriminate. destruct H as [-> | H].
    + exists [], (sep ++ join sep (q' :: qs)). reflexivity.
    + destruct (IH H) as (pre & post & E). rewrite E.
      exists (q ++ sep ++ pre), post. now rewrite <- !app_assoc.
Qed.

Lemma join_split_on_from (sep : codepoint) (s cur : pystr) :
  join [sep] (split_on_from sep cur s) = rev cur ++ s.
Proof.
  revert cur; induction s as [|c s IH]; intros cur; simpl split_on_from.
  - simpl. now rewrite app_nil_r.
  - destruct (N.eqb_spec c sep) as [->|_].
    + rewrite join_cons by apply split_on_from_not_nil.
      now rewrite (IH []).
    + rewrite IH. simpl. now rewrite <- app_assoc.
Qed.

(** Joining the pieces with the separator gives the string back. *)
Lemma join_split_on (sep : codepoint) (s : pystr) :
  join [sep] (split_on sep s) = s.
Proof. apply (join_split_on_from sep s []). Qed.

Lemma in_split_on_substring (sep : codepoint) (s p : pystr) :
  In p (split_on sep s) -> substring p s.
Proof.
  intros H. pose proof (in_join_substring [sep] p _ H) as Hs.
  now rewrite join_split_on in Hs.
Qed.

Lemma split_on_from_no_sep (sep : codepoint) (s cur : pystr) :
  ~ In sep cur ->
  Forall (fun p => ~ In sep p) (split_on_from sep cur s).
Proof.
  revert cur; induction s as [|c s IH]; intros cur Hcur; simpl.
  - constructor; [|constructor]. intros H. now apply in_rev in H.
  - destruct (N.eqb_spec c sep) as [->|Hc].
    + constructor; [|now apply IH].
      intros H. now apply in_rev in H.
    + apply IH. intros [E | H]; [now apply Hc | now apply Hcur].
Qed.

Lemma strip_substring (s : pystr) : substring (strip s) s.
Proof.
  destruct (strip_spec s) as (l & r & E & _). now exists l, r.
Qed.

Lemma lstrip_fixed (t : pystr) :
  (forall c r, t = c :: r -> is_space c = false) -> lstrip t = t.
Proof.
  destruct t as [|c r]; intros H; simpl; [reflexivity|].
  now rewrite (H c r eq_refl).
Qed.

Lemma rstrip_fixed (t : pystr) :
  (forall c r, t = r ++ [c] -> is_space c = false) -> rstrip t = t.
Proof.
  intros H. unfold rstrip. rewrite lstrip_fixed; [apply rev_involutive|].
  intros c r E. apply (H c (rev r)).
  rewrite <- (rev_involutive t), E. reflexivity.
Qed.

Lemma strip_fixed (t : pystr) :
  (forall c r, t = c :: r -> is_space c = false) ->
  (forall c r, t = r ++ [c] -> is_space c = false) ->
  strip t = t.
Proof.
  intros Hhd Hlast. unfold strip.
  rewrite (lstrip_fixed t Hhd). now apply rstrip_fixed.
Qed.

(** Trimming twice is trimming once. *)
Lemma strip_idem (s : pystr) : strip (strip s) = strip s.
Proof.
  destruct (strip_spec s) as (l & r & _ & _ & _ & Hhd & Hlast).
  now apply strip_fixed.
Qed.

Lemma strip_space_cons (c : codepoint) (s : pystr) :
  is_space c = true -> strip (c :: s) = strip s.
Proof. intros H. unfold strip. simpl. now rewrite H. Qed.

Lemma strip_not_blank (p : pystr) :
  negb (is_empty (strip p)) = true <-> strip p <> [].
Proof.
  rewrite negb_true_iff. apply is_empty_false.
Qed.

Lemma parse_tags_unfold (s : pystr) :
  parse_tags s
  = map strip (filter (fun p => negb (is_empty (strip p))) (split_on 44%N s)).
Proof.
  unfold parse_tags. destruct s; reflexivity.
Qed.

Lemma parse_tags_in (s t : pystr) :
  In t (parse_tags s) ->
  exists p, In p (split_on 44%N s) /\ t = strip p /\ strip p <> [].
Proof.
  rewrite parse_tags_unfold. intros H.
  apply in_map_iff in H as (p & <- & Hp).
  apply filter_In in Hp as [Hp Hne].
  exists p. repeat split; [exact Hp | now apply strip_not_blank].
Qed.

Lemma parse_tags_well_formed (s : pystr) :
  Forall well_formed_tag (parse_tags s).
Proof.
  apply Forall_forall. intros t Ht.
  apply parse_tags_in in Ht as (p & Hp & -> & Hne).
  repeat split.
  - exact Hne.
  - intros H. apply (substring_in (strip p) p 44%N (strip_substring p)) in H.
    pose proof (split_on_from_no_sep 44%N s [] (fun F => F)) as Hall.
    rewrite Forall_forall in Hall. now apply (Hall p Hp).
  - apply strip_idem.
Qed.

Lemma parse_tags_pieces (pieces : list pystr) :
  pieces <> [] ->
  Forall (fun piece => ~ In 44%N piece) pieces ->
  parse_tags (join [44%N] pieces)
  = map strip (filter (fun piece => negb (is_empty (strip piece))) pieces).
Proof.
  intros Hne Hsep. rewrite parse_tags_unfold.
  do 2 f_equal. exact (split_on_join 44%N pieces Hne Hsep).
Qed.

Lemma strip_kept (pieces : list pystr) :
  Forall (fun p => strip p <> []) pieces ->
  filter (fun p => negb (is_empty (strip p))) pieces = pieces.
Proof.
  induction 1 as [|p ps Hp _ IH]; simpl; [reflexivity|].
  apply strip_not_blank in Hp. now rewrite Hp, IH.
Qed.

Lemma well_formed_tags_fixed (ts : list pystr) :
  Forall well_formed_tag ts ->
  map strip (filter (fun p => negb (is_empty (strip p))) ts) = ts.
Proof.
  intros H. rewrite strip_kept.
  - induction H as [|t ts (_ & _ & Ht) _ IH]; simpl; [reflexivity|].
    now rewrite Ht, IH.
  - eapply Forall_impl; [|exact H]. intros t (Hne & _ & Ht). now rewrite Ht.
Qed.

Lemma parse_tags_join_comma (ts : list pystr) :
  Forall well_formed_tag ts -> parse_tags (join [44%N] ts) = ts.
Proof.
  intros H. destruct ts as [|t ts]; [reflexivity|].
  rewrite parse_tags_pieces; [now apply well_formed_tags_fixed|discriminate|].
  eapply Forall_impl; [|exact H]. now intros p (_ & Hp & _).
Qed.

Lemma join_comma_space (t : pystr) (ts : list pystr) :
  join [44%N; 32%N] (t :: ts) = join [44%N] (t :: map (cons 32%N) ts).
Proof.
  revert t; induction ts as [|u us IH]; intros t; [reflexivity|].
  rewrite join_cons by discriminate.
  change (map (cons 32%N) (u :: us)) with ((32%N :: u) :: map (cons 32%N) us).
  rewrite (join_cons [44%N] t) by discriminate.
  rewrite IH. destruct us; simpl; now rewrite <- ?app_assoc.
Qed.

Lemma parse_tags_join_comma_space (ts : list pystr) :
  Forall well_formed_tag ts -> parse_tags (join [44%N; 32%N] ts) = ts.
Proof.
  intros H. destruct ts as [|t ts]; [reflexivity|].
  rewrite join_comma_space. inversion H as [|? ? Ht Hts]; subst.
  rewrite parse_tags_pieces; [|discriminate|].
  - assert (Hpad : Forall (fun p => strip p <> []) (t :: map (cons 32%N) ts)).
    { constructor.
      - destruct Ht as (Hne & _ & E). now rewrite E.
      - apply Forall_map. eapply Forall_impl; [|exact Hts].
        intros u (Hne & _ & E). rewrite strip_space_cons by reflexivity.
        now rewrite E. }
    rewrite (strip_kept _ Hpad). simpl. f_equal.
    + now destruct Ht as (_ & _ & E).
    + rewrite map_map. clear H Hpad Ht.
      induction Hts as [|u us (_ & _ & E) _ IH]; simpl; [reflexivity|].
      rewrite strip_space_cons by reflexivity. now rewrite E, IH.
  - constructor.
    + now destruct Ht as (_ & Hc & _).
    + apply Forall_map. eapply Forall_impl; [|exact Hts].
      intros u (_ & Hc & _) [E | Hin]; [discriminate | now apply Hc].
Qed.

Lemma blank_pieces (s cur : pystr) :
  is_empty (filter (fun p => negb (is_empty (strip p)))
                   (split_on_from 44%N cur s))
  = forallb is_space cur && forallb space_or_comma s.
Proof.
  assert (Hblank : forall p,
             is_empty (strip (rev p)) = forallb is_space p).
  { intros p. destruct (forallb is_space p) eqn:E.
    - apply is_empty_true, strip_blank. rewrite forallb_forall in *.
      intros c Hc. apply E. now apply in_rev.
    - apply is_empty_false. intros H. apply strip_nil_blank in H.
      rewrite forallb_forall in H.
      assert (forallb is_space p = true); [|congruence].
      apply forallb_forall. intros c Hc. apply H. now apply in_rev in Hc. }
  revert cur; induction s as [|c s IH]; intros cur; simpl.
  - rewrite Hblank. destruct (forallb is_space cur); reflexivity.
  - unfold space_or_comma at 1.
    destruct (N.eqb_spec c 44%N) as [->|Hc]; simpl.
    + rewrite Hblank.
      destruct (forallb is_space cur); simpl; [apply (IH [])|reflexivity].
    + rewrite IH. simpl. rewrite orb_false_r.
      now destruct (is_space c), (forallb is_space cur).
Qed.

(** X2.  Every tag the form handler stores is a non-empty part of the field
    that holds no comma and neither starts nor ends with whitespace.
    Submitting the stored tags again, joined by commas, stores the same
    tags. *)
Theorem stored_tags_are_clean (field : pystr) :
  Forall (fun t =>
            t <> []
            /\ ~ In 44%N t
            /\ substring t field
            /\ (forall c r, t = c :: r -> is_space c = false)
            /\ (forall c r, t = r ++ [c] -> is_space c = false))
         (parse_tags field)
  /\ parse_tags (join (lit ",") (parse_tags field)) = parse_tags field
  /\ (forall db title author,
        exists row,
          fst (create_book_via_form db title author field) = db ++ [row]
          /\ tags row = parse_tags field).
Proof.
  split; [|split].
  - apply Forall_forall. intros t Ht.
    pose proof (parse_tags_well_formed field) as Hwf.
    rewrite Forall_forall in Hwf. destruct (Hwf t Ht) as (Hne & Hc & _).
    apply parse_tags_in in Ht as (p & Hp & -> & _).
    destruct (strip_spec p) as (l & r & _ & _ & _ & Hhd & Hlast).
    repeat split; auto.
    apply (substring_trans (strip p) p field (strip_substring p)).
    now apply (in_split_on_substring 44%N).
  - apply parse_tags_join_comma, parse_tags_well_formed.
  - intros db title author. eexists. split; reflexivity.
Qed.

(** X3.  The form handler stores no tags exactly when the field holds nothing
    but whitespace and commas. *)
Theorem no_tags_iff_blank_field (field : pystr) :
  parse_tags field = [] <-> forallb space_or_comma field = true.
Proof.
  rewrite parse_tags_unfold. unfold split_on.
  pose proof (blank_pieces field []) as H.
  change (forallb is_space [] && forallb space_or_comma field)
    with (forallb space_or_comma field) in H.
  rewrite <- H.
  destruct (filter _ (split_on_from 44%N [] field)); simpl; split;
    congruence.
Qed.

(** X4.  Tags that are non-empty, comma-free and trimmed come back unchanged
    from a field that lists them separated by a comma and a space, or by a
    comma alone. *)
Theorem tags_round_trip (ts : list pystr) :
  Forall well_formed_tag ts ->
  parse_tags (join (lit ", ") ts) = ts
  /\ parse_tags (join (lit ",") ts) = ts.
Proof.
  intros H. split.
  - now apply parse_tags_join_comma_space.
  - now apply parse_tags_join_comma.
Qed.

(** ** The recommender: what the result depends on *)

Section Dependence.

Variable lower : pystr -> pystr.

Lemma fold_left_body_ext (qw1 qw2 : list pystr) (books : list Book) :
  (forall b, In b books ->
             match_score lower qw1 b = match_score lower qw2 b) ->
  forall st,
    fold_left (loop_body lower qw1) books st
    = fold_left (loop_body lower qw2) books st.
Proof.
  induction books as [|book rest IH]; intros H st; simpl; [reflexivity|].
  assert (E : loop_body lower qw1 st book = loop_body lower qw2 st book).
  { unfold loop_body. now rewrite (H book (or_introl eq_refl)). }
  rewrite E. apply IH. intros b Hb. apply H. now right.
Qed.

Lemma filter_length_perm (A : Type) (f : A -> bool) (l1 l2 : list A) :
  Permutation l1 l2 ->
  List.length (filter f l1) = List.length (filter f l2).
Proof.
  induction 1 as [|x l l' _ IH|x y l|l l' l'' _ IH1 _ IH2]; simpl.
  - reflexivity.
  - destruct (f x); simpl; now rewrite IH.
  - now destruct (f x), (f y).
  - now rewrite IH1.
Qed.

Lemma match_score_perm (qw1 qw2 : list pystr) (book : Book) :
  Permutation qw1 qw2 ->
  match_score lower qw1 book = match_score lower qw2 book.
Proof.
  intros H. rewrite !match_score_length. now apply filter_length_perm.
Qed.

(** A change of the books that keeps, for each book, whether it has tags
    and what it scores, changes the result in the same way. *)
Lemma recommend_map (f : Book -> Book) (q : pystr) (books : list Book) :
  (forall b, In b books ->
             is_empty (tags (f b)) = is_empty (tags b)
             /\ match_score lower (split_ws (lower q)) (f b)
                = match_score lower (split_ws (lower q)) b) ->
  recommend_book_simple lower q (map f books)
  = option_map f (recommend_book_simple lower q books).
Proof.
  intros H. unfold recommend_book_simple.
  destruct (is_empty q || is_empty (strip q)); [reflexivity|].
  assert (G : forall st,
             fold_left (loop_body lower (split_ws (lower q))) (map f books)
                       (mkBest (option_map f (best_book st))
                               (best_match_score st))
             = mkBest
                 (option_map f
                    (best_book
                       (fold_left (loop_body lower (split_ws (lower q)))
                                  books st)))
                 (best_match_score
                    (fold_left (loop_body lower (split_ws (lower q)))
                               books st))).
  { induction books as [|book rest IH]; intros st; simpl; [reflexivity|].
    destruct (H book (or_introl eq_refl)) as [He Hs].
    assert (E : loop_body lower (split_ws (lower q))
                  (mkBest (option_map f (best_book st)) (best_match_score st))
                  (f book)
                = mkBest
                    (option_map f
                       (best_book
                          (loop_body lower (split_ws (lower q)) st book)))
                    (best_match_score
                       (loop_body lower (split_ws (lower q)) st book))).
    { unfold loop_body. rewrite He, Hs. simpl.
      destruct (is_empty (tags book)); [reflexivity|].
      now destruct (best_match_score st
                    <? match_score lower (split_ws (lower q)) book). }
    rewrite E. apply IH. intros b Hb. apply H. now right. }
  specialize (G no_best).
  change (mkBest (option_map f (best_book no_best)) (best_match_score no_best))
    with no_best in G.
  rewrite G. reflexivity.
Qed.

Lemma recommend_member (q : pystr) (books : list Book) (b : Book) :
  recommend_book_simple lower q books = Some b -> In b books.
Proof.
  intros Hr. destruct (blank_or_not q) as [Hq|Hq].
  - now rewrite (recommend_blank lower q books Hq) in Hr.
  - destruct (recommend_cases lower q books Hq)
      as [[E _] | (i & b0 & E & Hi & _)]; rewrite E in Hr; [discriminate|].
    injection Hr as <-. exact (nth_error_In _ _ Hi).
Qed.

(** The loop variables after a run: the book returned, if any, together
    with its own score. *)
Lemma fold_state (q : pystr) (books : list Book) :
  strip q <> [] ->
  fold_left (loop_body lower (split_ws (lower q))) books no_best
  = match recommend_book_simple lower q books with
    | Some b => mkBest (Some b) (match_score lower (split_ws (lower q)) b)
    | None => no_best
    end.
Proof.
  intros Hq. rewrite (recommend_nonblank lower q books Hq).
  destruct (fold_cases lower (split_ws (lower q)) books no_best)
    as [[_ E] | (i & b & _ & Hlt & _ & _ & E)]; rewrite E; [reflexivity|].
  simpl. f_equal. apply counted_tagged.
  apply (counted_pos_tagged lower (split_ws (lower q))). simpl in Hlt. lia.
Qed.

End Dependence.

(** X6.  The scorer reads nothing of a book but its tags: changing the other
    fields of the books changes the result in the same way and no
    further. *)
Theorem recommendation_reads_tags_only
    (lower : pystr -> pystr) (f : Book -> Book) (user_query : pystr)
    (all_books : list Book) :
  (forall b, tags (f b) = tags b) ->
  recommend_book_simple lower user_query (map f all_books)
  = option_map f (recommend_book_simple lower user_query all_books).
Proof.
  intros H. apply recommend_map. intros b _.
  unfold match_score. now rewrite H.
Qed.

(** X7.  The order of the words of the query does not matter: two queries that
    are not blank and whose tokens are a rearrangement of each other get
    the same book. *)
Theorem query_word_order_is_irrelevant
    (lower : pystr -> pystr) (query1 query2 : pystr) (all_books : list Book) :
  strip query1 <> [] ->
  strip query2 <> [] ->
  Permutation (split_ws (lower query1)) (split_ws (lower query2)) ->
  recommend_book_simple lower query1 all_books
  = recommend_book_simple lower query2 all_books.
Proof.
  intros H1 H2 Hperm.
  rewrite (recommend_nonblank lower query1 all_books H1).
  rewrite (recommend_nonblank lower query2 all_books H2).
  f_equal. apply fold_left_body_ext.
  intros b _. now apply match_score_perm.
Qed.

(** X8.  A book added at the end of the list becomes the recommendation only
    when it scores strictly more than the book recommended before, or more
    than 0 when none was; otherwise the recommendation is unchanged. *)
Theorem appended_book_needs_a_higher_score
    (lower : pystr -> pystr) (user_query : pystr) (all_books : list Book)
    (book : Book) :
  strip user_query <> [] ->
  let query_words := split_ws (lower user_query) in
  recommend_book_simple lower user_query (all_books ++ [book])
  = match recommend_book_simple lower user_query all_books with
    | Some best =>
        if match_score lower query_words best
           <? counted lower query_words book
        then Some book else Some best
    | None =>
        if 0 <? counted lower query_words book then Some book else None
    end.
Proof.
  intros Hq. cbv zeta.
  rewrite (recommend_nonblank lower user_query (all_books ++ [book]) Hq).
  rewrite fold_left_app, (fold_state lower user_query all_books Hq).
  simpl fold_left. rewrite loop_body_counted.
  destruct (recommend_book_simple lower user_query all_books) as [best|];
    simpl best_match_score.
  - now destruct (match_score lower (split_ws (lower user_query)) best
                  <? counted lower (split_ws (lower user_query)) book).
  - now destruct (0 <? counted lower (split_ws (lower user_query)) book).
Qed.

(** X9.  The book the recommendation page shows as recommended is one of the
    books the same page lists, which are the rows of the table. *)
Theorem recommended_book_is_listed
    (lower : pystr -> pystr) (db : Table) (user_query : pystr) (b : Book) :
  Page.recommended_book (get_recommendation lower db user_query) = Some b ->
  In b (Page.books (get_recommendation lower db user_query))
  /\ Page.books (get_recommendation lower db user_query) = db.
Proof.
  intros H. split; [|reflexivity].
  exact (recommend_member lower user_query db b H).
Qed.

(** X10.  Books that have no tags or score 0 can be left out of the list without
    changing the result. *)
Theorem zero_score_books_can_be_dropped
    (lower : pystr -> pystr) (user_query : pystr) (all_books : list Book) :
  recommend_book_simple lower user_query
    (filter (fun b => 0 <? counted lower (split_ws (lower user_query)) b)
            all_books)
  = recommend_book_simple lower user_query all_books.
Proof.
  unfold recommend_book_simple.
  destruct (is_empty user_query || is_empty (strip user_query));
    [reflexivity|].
  f_equal. generalize no_best.
  induction all_books as [|book rest IH]; intros st; [reflexivity|].
  cbn [filter fold_left].
  destruct (Nat.ltb_spec 0
              (counted lower (split_ws (lower user_query)) book)) as [Hpos|H0].
  - cbn [fold_left]. apply IH.
  - rewrite IH. f_equal. rewrite loop_body_counted.
    now destruct (Nat.ltb_spec (best_match_score st)
                    (counted lower (split_ws (lower user_query)) book));
      [lia|].
Qed.

(** ** Case mappings that lowercase tag by tag *)

Section TagByTag.

Variable lower : pystr -> pystr.
Hypothesis lower_join :
  forall ts, lower (join [32%N] ts) = join [32%N] (map lower ts).

Lemma substring_nil_inv (w : pystr) : substring w [] -> w = [].
Proof.
  intros (pre & post & E). symmetry in E.
  apply app_eq_nil in E as [_ E]. now apply app_eq_nil in E as [E _].
Qed.

Lemma substring_sep (w a b : pystr) (c : codepoint) :
  w <> [] -> ~ In c w ->
  substring w (a ++ c :: b) -> substring w a \/ substring w b.
Proof.
  intros Hne Hc (pre & post & E). symmetry in E.
  apply app_eq_app in E as [l [[Hpre Hb] | [Ha Hw]]].
  - destruct l as [|c' l].
    + simpl in Hb. destruct w as [|c' w]; [congruence|].
      injection Hb as -> _. exfalso. apply Hc. now left.
    + simpl in Hb. injection Hb as _ ->. right. now exists l, post.
  - apply app_eq_app in Hw as [l2 [[Hw2 Hcb] | [Hl Hpost]]].
    + destruct l2 as [|c' l2].
      * left. rewrite app_nil_r in Hw2. subst.
        exists pre, []. now rewrite app_nil_r.
      * simpl in Hcb. injection Hcb as -> _. exfalso. apply Hc.
        rewrite Hw2. apply in_elt.
    + left. subst. now exists pre, l2.
Qed.

Lemma substring_join (w : pystr) (ts : list pystr) :
  w <> [] -> ~ In 32%N w ->
  (substring w (join [32%N] ts) <-> exists t, In t ts /\ substring w t).
Proof.
  intros Hne Hc. split.
  - induction ts as [|t ts IH]; intros H.
    + now apply substring_nil_inv in H.
    + destruct ts as [|u us].
      * exists t. split; [now left | exact H].
      * rewrite join_cons in H by discriminate.
        destruct (substring_sep w t (join [32%N] (u :: us)) 32%N Hne Hc H)
          as [Ht | Hrest].
        -- exists t. split; [now left | exact Ht].
        -- destruct (IH Hrest) as (t' & Hin & Ht').
           exists t'. split; [now right | exact Ht'].
  - intros (t & Hin & Ht).
    exact (substring_trans w t _ Ht (in_join_substring [32%N] t ts Hin)).
Qed.

Lemma token_no_space (w : pystr) : is_token w -> w <> [] /\ ~ In 32%N w.
Proof.
  intros [Hne Hw]. split; [exact Hne|]. intros Hin.
  rewrite forallb_forall in Hw. now specialize (Hw _ Hin).
Qed.

Lemma token_matches_in_a_tag (book : Book) (w : pystr) :
  is_token w ->
  (token_matches lower book w <-> token_in_a_tag lower book w).
Proof.
  intros Hw. destruct (token_no_space w Hw) as [Hne Hc].
  unfold token_matches, token_in_a_tag.
  rewrite lower_join, (substring_join w (map lower (tags book)) Hne Hc).
  split.
  - intros (t' & Hin & Ht'). apply in_map_iff in Hin as (t & <- & Hin).
    now exists t.
  - intros (t & Hin & Ht). exists (lower t). split; [|exact Ht].
    now apply in_map.
Qed.

Lemma match_score_same_tags (query_words : list pystr) (b1 b2 : Book) :
  Forall is_token query_words ->
  (forall t, In t (tags b1) <-> In t (tags b2)) ->
  match_score lower query_words b1 = match_score lower query_words b2.
Proof.
  intros Htok Hsame. rewrite !match_score_length.
  f_equal. apply filter_ext_in. intros w Hin.
  rewrite Forall_forall in Htok. pose proof (Htok w Hin) as Hw.
  apply eq_true_iff_eq. rewrite !contains_spec.
  change (token_matches lower b1 w <-> token_matches lower b2 w).
  rewrite !(token_matches_in_a_tag _ w Hw). unfold token_in_a_tag.
  split; intros (t & Ht & Hs); exists t;
    (split; [now apply Hsame | exact Hs]).
Qed.

End TagByTag.

Lemma count_tokens_ext (P Q : pystr -> Prop) (ws : list pystr) (n : nat) :
  Forall (fun w => P w <-> Q w) ws ->
  count_tokens P ws n -> count_tokens Q ws n.
Proof.
  intros H Hc. induction Hc as [|w ws n Hw _ IH|w ws n Hw _ IH];
    inversion H as [|? ? Hpq Hrest]; subst.
  - constructor.
  - apply count_hit; [now apply Hpq | now apply IH].
  - apply count_miss; [rewrite <- Hpq; exact Hw | now apply IH].
Qed.

(** X11.  When lowercasing the tags joined by single spaces is the same as
    joining the lowercased tags (the space is not a letter, so it cuts the
    text into parts that are lowercased on their own), a query token counts
    for a book exactly when it occurs inside one of the book's tags,
    lowercased: a match never runs from one tag into the next.  The score
    is the number of query tokens that occur in some tag. *)
Theorem tokens_match_inside_single_tags
    (lower : pystr -> pystr) (user_query : pystr) (book : Book) :
  (forall ts, lower (join [32%N] ts) = join [32%N] (map lower ts)) ->
  let query_words := split_ws (lower user_query) in
  (forall w, In w query_words ->
             (token_matches lower book w <-> token_in_a_tag lower book w))
  /\ count_tokens (token_in_a_tag lower book) query_words
                  (match_score lower query_words book).
Proof.
  intros Hjoin. cbv zeta.
  pose proof (split_ws_tokens (lower user_query)) as Htok.
  assert (Hall : Forall (fun w => token_matches lower book w
                                  <-> token_in_a_tag lower book w)
                        (split_ws (lower user_query))).
  { eapply Forall_impl; [|exact Htok].
    intros w Hw. now apply token_matches_in_a_tag. }
  split.
  - rewrite Forall_forall in Hall. exact Hall.
  - apply (count_tokens_ext _ _ _ _ Hall). apply match_score_counts.
Qed.

(** X12.  Under the same condition the tags of a book count as a set:
    putting them in another order, or repeating some, changes neither the
    scores nor the book returned. *)
Theorem tags_count_as_a_set
    (lower : pystr -> pystr) (f : Book -> Book) (user_query : pystr)
    (all_books : list Book) :
  (forall ts, lower (join [32%N] ts) = join [32%N] (map lower ts)) ->
  (forall b t, In t (tags (f b)) <-> In t (tags b)) ->
  (forall b, match_score lower (split_ws (lower user_query)) (f b)
             = match_score lower (split_ws (lower user_query)) b)
  /\ recommend_book_simple lower user_query (map f all_books)
     = option_map f (recommend_book_simple lower user_query all_books).
Proof.
  intros Hjoin Hsame.
  assert (Hscore : forall b,
             match_score lower (split_ws (lower user_query)) (f b)
             = match_score lower (split_ws (lower user_query)) b).
  { intros b. apply (match_score_same_tags lower Hjoin).
    - apply split_ws_tokens.
    - apply Hsame. }
  split; [exact Hscore|].
  apply recommend_map. intros b _. split; [|apply Hscore].
  destruct (tags b) as [|t ts] eqn:Eb, (tags (f b)) as [|u us] eqn:Ef;
    try reflexivity.
  - pose proof (proj1 (Hsame b u)) as H. rewrite Ef, Eb in H.
    destruct H. now left.
  - pose proof (proj2 (Hsame b t)) as H. rewrite Ef, Eb in H.
    destruct H. now left.
Qed.

(** ** Instances of the further properties *)

Lemma lower_basic_join (ts : list pystr) :
  lower_basic (join [32%N] ts) = join [32%N] (map lower_basic ts).
Proof.
  induction ts as [|t ts IH]; [reflexivity|].
  destruct ts as [|u us]; [reflexivity|].
  rewrite (join_cons [32%N] t (u :: us)) by discriminate.
  change (map lower_basic (t :: u :: us))
    with (lower_basic t :: map lower_basic (u :: us)).
  rewrite (join_cons [32%N] (lower_basic t) (map lower_basic (u :: us)))
    by (simpl; discriminate).
  unfold lower_basic at 1. rewrite !map_app. fold (lower_basic t).
  fold (lower_basic (join [32%N] (u :: us))). now rewrite IH.
Qed.

Lemma database_url_normalised_witness :
  starts_with (lit "postgresql+psycopg://u@h/postgres://x")
              (lit "postgres://") = false
  /\ database_url (Some (lit "postgresql+psycopg://u@h/postgres://x"))
     = lit "postgresql+psycopg://u@h/postgres://x".
Proof.
  split; [reflexivity|].
  apply (proj1 (proj2 database_url_normalised)). reflexivity.
Defined.

Lemma stored_tags_are_clean_witness :
  parse_tags (join (lit ",") (parse_tags (lit " юмор ,, добро и зло ,")))
  = parse_tags (lit " юмор ,, добро и зло ,").
Proof.
  exact (proj1 (proj2 (stored_tags_are_clean (lit " юмор ,, добро и зло ,")))).
Defined.

Lemma no_tags_iff_blank_field_witness :
  forallb space_or_comma (lit " , ,,  ") = true
  /\ parse_tags (lit " , ,,  ") = [].
Proof.
  split; [reflexivity|].
  apply (proj2 (no_tags_iff_blank_field (lit " , ,,  "))). reflexivity.
Defined.

Lemma tags_round_trip_witness :
  Forall well_formed_tag [lit "юмор"; lit "добро и зло"]
  /\ parse_tags (join (lit ", ") [lit "юмор"; lit "добро и зло"])
     = [lit "юмор"; lit "добро и зло"].
Proof.
  assert (H : Forall well_formed_tag [lit "юмор"; lit "добро и зло"]).
  { repeat constructor; try discriminate;
      try (vm_compute; intuition discriminate). }
  split; [exact H|].
  exact (proj1 (tags_round_trip [lit "юмор"; lit "добро и зло"] H)).
Defined.

Lemma recommendation_reads_tags_only_witness :
  recommend_book_simple lower_basic (lit "дружба")
    (map (fun b => mkBook None [] [] (tags b)) [untagged_book; prince_book])
  = option_map (fun b => mkBook None [] [] (tags b))
      (recommend_book_simple lower_basic (lit "дружба")
         [untagged_book; prince_book]).
Proof.
  apply (recommendation_reads_tags_only lower_basic
           (fun b => mkBook None [] [] (tags b))).
  intros b. reflexivity.
Defined.

Lemma query_word_order_is_irrelevant_witness :
  recommend_book_simple lower_basic (lit "дружба любовь")
    [prince_book; friendship_book]
  = recommend_book_simple lower_basic (lit " Любовь  дружба")
      [prince_book; friendship_book].
Proof.
  apply query_word_order_is_irrelevant.
  - vm_compute; discriminate.
  - vm_compute; discriminate.
  - vm_compute. apply perm_swap.
Defined.

Lemma appended_book_needs_a_higher_score_witness :
  strip (lit "дружба") <> []
  /\ recommend_book_simple lower_basic (lit "дружба")
       ([friendship_book] ++ [prince_book]) = Some friendship_book.
Proof.
  assert (H : strip (lit "дружба") <> []) by (vm_compute; discriminate).
  split; [exact H|].
  rewrite (appended_book_needs_a_higher_score lower_basic
             (lit "дружба") [friendship_book] prince_book H).
  vm_compute. reflexivity.
Defined.

Lemma recommended_book_is_listed_witness :
  In friendship_book
     (Page.books (get_recommendation lower_basic
                    [untagged_book; friendship_book] (lit "любовь"))).
Proof.
  apply (recommended_book_is_listed lower_basic
           [untagged_book; friendship_book] (lit "любовь") friendship_book).
  vm_compute. reflexivity.
Defined.

Lemma tokens_match_inside_single_tags_witness :
  count_tokens (token_in_a_tag lower_basic friendship_book)
    (split_ws (lower_basic (lit "Дружба и любовь")))
    (match_score lower_basic
       (split_ws (lower_basic (lit "Дружба и любовь"))) friendship_book).
Proof.
  exact (proj2 (tokens_match_inside_single_tags lower_basic
                  (lit "Дружба и любовь") friendship_book
                  lower_basic_join)).
Defined.

Lemma tags_count_as_a_set_witness :
  recommend_book_simple lower_basic (lit "дружба")
    (map (fun b => mkBook (id b) (title b) (author b) (rev (tags b)))
         [friendship_book; prince_book])
  = option_map (fun b => mkBook (id b) (title b) (author b) (rev (tags b)))
      (recommend_book_simple lower_basic (lit "дружба")
         [friendship_book; prince_book]).
Proof.
  apply (proj2 (tags_count_as_a_set lower_basic
                  (fun b => mkBook (id b) (title b) (author b) (rev (tags b)))
                  (lit "дружба") [friendship_book; prince_book]
                  lower_basic_join
                  (fun b t => iff_sym (in_rev (tags b) t)))).
Defined.
